(** * Looker MCP server: the tenant-scoped API client

    A shallow embedding of the credential helpers of [src/types/env.ts] and of
    [LookerClientImpl] of [src/client.ts], with the properties of the
    request/authentication layer stated over it.

    Conventions.
    - A JavaScript string is the list of the bytes of its UTF-8 encoding.
    - A JavaScript number that the code treats as a count, a status, a number
      of seconds or a time stamp is an integer of [Z]; doubles are exact on
      the integers below 2^53.  The one place where the code can produce a
      number that is no integer ([parseInt]) has a type of its own, [JsNum].
    - [undefined] and [null] in an optional field are [None]. *)

From Stdlib Require Import ZArith Ascii String List Lia Bool.
From stdpp Require Import base option strings gmap pretty.

Set Warnings "-register-all".

Local Open Scope string_scope.
Local Open Scope Z_scope.

(** ** JavaScript primitives used by the client *)

Module JS.

(** Truthiness of a string: every string but the empty one. *)
Definition truthy_string (s : string) : bool :=
  match s with
  | EmptyString => false
  | String _ _ => true
  end.

(** Truthiness of [string | undefined] (or [string | null]). *)
Definition truthy (o : option string) : bool :=
  match o with
  | Some s => truthy_string s
  | None => false
  end.

(** Truthiness of [number | undefined], on integers. *)
Definition truthy_number (o : option Z) : bool :=
  match o with
  | Some z => negb (z =? 0)
  | None => false
  end.

(** [o || d] at type number. *)
Definition number_or (o : option Z) (d : Z) : Z :=
  match o with
  | Some z => if z =? 0 then d else z
  | None => d
  end.

(** [x || undefined] at type [string | null]: what [parseTenantCredentials]
    does to each header. *)
Definition or_undefined (o : option string) : option string :=
  match o with
  | Some s => if truthy_string s then Some s else None
  | None => None
  end.

(** A template literal's rendering of [string | undefined]. *)
Definition template (o : option string) : string :=
  match o with
  | Some s => s
  | None => "undefined"
  end.

(** *** Percent encoding *)

Definition code (c : ascii) : N := N_of_ascii c.

Definition between (lo hi : N) (c : ascii) : bool :=
  ((lo <=? code c) && (code c <=? hi))%N.

Definition is_digit (c : ascii) : bool := between 48 57 c.

Definition is_alnum (c : ascii) : bool :=
  is_digit c || between 65 90 c || between 97 122 c.

Definition one_of (l : list N) (c : ascii) : bool :=
  existsb (N.eqb (code c)) l.

Definition hex_digit (n : N) : ascii :=
  if (n <? 10)%N then ascii_of_N (48 + n) else ascii_of_N (55 + n).

(** [%XX], upper-case hexadecimal. *)
Definition percent (c : ascii) : string :=
  String "%" (String (hex_digit (code c / 16))
                     (String (hex_digit (code c mod 16)) EmptyString)).

(** [encodeURIComponent]: letters, digits and [- _ . ! ~ * ' ( )] are kept,
    every other byte of the UTF-8 encoding is escaped. *)
Definition uri_unreserved (c : ascii) : bool :=
  is_alnum c || one_of [45; 95; 46; 33; 126; 42; 39; 40; 41]%N c.

Fixpoint encodeURIComponent (s : string) : string :=
  match s with
  | EmptyString => EmptyString
  | String c r =>
      if uri_unreserved c then String c (encodeURIComponent r)
      else percent c +:+ encodeURIComponent r
  end.

(** The application/x-www-form-urlencoded byte serializer behind
    [URLSearchParams.prototype.toString]: a space becomes [+], letters,
    digits and [* - . _] are kept, every other byte is escaped. *)
Definition form_unreserved (c : ascii) : bool :=
  is_alnum c || one_of [42; 45; 46; 95]%N c.

Fixpoint form_encode (s : string) : string :=
  match s with
  | EmptyString => EmptyString
  | String c r =>
      if (code c =? 32)%N then String "+" (form_encode r)
      else if form_unreserved c then String c (form_encode r)
      else percent c +:+ form_encode r
  end.

(** *** URLSearchParams *)

Definition URLSearchParams := list (string * string).

(** [set]: the first pair of that name takes the value and the other pairs
    of that name go; a new name is appended. *)
Fixpoint usp_set (name value : string) (q : URLSearchParams) : URLSearchParams :=
  match q with
  | [] => [(name, value)]
  | (n, v) :: r =>
      if String.eqb n name
      then (name, value) :: List.filter (fun p => negb (String.eqb (fst p) name)) r
      else (n, v) :: usp_set name value r
  end.

Fixpoint usp_toString (q : URLSearchParams) : string :=
  match q with
  | [] => ""
  | [(n, v)] => form_encode n +:+ "=" +:+ form_encode v
  | (n, v) :: r => form_encode n +:+ "=" +:+ form_encode v +:+ "&" +:+ usp_toString r
  end.

(** [if (x) q.set(name, x)] for a string [x]. *)
Definition set_if_string (name : string) (x : option string) (q : URLSearchParams)
  : URLSearchParams :=
  if truthy x then usp_set name (template x) q else q.

(** [if (n) q.set(name, String(n))] for a number [n]. *)
Definition set_if_number (name : string) (n : option Z) (q : URLSearchParams)
  : URLSearchParams :=
  match n with
  | Some z => if truthy_number n then usp_set name (pretty z) q else q
  | None => q
  end.

(** *** parseInt(s, 10) *)

Inductive JsNum : Type :=
| NaN
| Num (z : Z).

(** One-byte white space: TAB, LF, VT, FF, CR, SP. *)
Definition ws1 (a : ascii) : bool := one_of [9; 10; 11; 12; 13; 32]%N a.

(** Two bytes: U+00A0. *)
Definition ws2 (a b : ascii) : bool :=
  ((code a =? 194) && (code b =? 160))%N.

(** Three bytes: U+1680, U+2000..U+200A, U+2028, U+2029, U+202F, U+205F,
    U+3000, U+FEFF. *)
Definition ws3 (a b c : ascii) : bool :=
  (((code a =? 225) && (code b =? 154) && (code c =? 128))
   || ((code a =? 226) && (code b =? 128)
       && (between 128 138 c || one_of [168; 169; 175] c))
   || ((code a =? 226) && (code b =? 129) && (code c =? 159))
   || ((code a =? 227) && (code b =? 128) && (code c =? 128))
   || ((code a =? 239) && (code b =? 187) && (code c =? 191)))%N.

Fixpoint trim_start (s : string) : string :=
  match s with
  | EmptyString => s
  | String a s1 =>
      if ws1 a then trim_start s1
      else match s1 with
           | EmptyString => s
           | String b s2 =>
               if ws2 a b then trim_start s2
               else match s2 with
                    | EmptyString => s
                    | String c s3 => if ws3 a b c then trim_start s3 else s
                    end
           end
  end.

(** The value of the longest prefix of decimal digits, most significant
    first. *)
Fixpoint digits_value (s : string) (acc : Z) : Z :=
  match s with
  | EmptyString => acc
  | String c r =>
      if is_digit c then digits_value r (10 * acc + Z.of_N (code c - 48))
      else acc
  end.

Definition starts_with_digit (s : string) : bool :=
  match s with
  | EmptyString => false
  | String c _ => is_digit c
  end.

(** White space is skipped, one sign is read, then the digits; no digit at
    all gives [NaN].  With radix 10 no [0x] prefix is recognised.  The
    number is the exact one, as it is in JavaScript below 2^53. *)
Definition parseInt (s : string) : JsNum :=
  let t := trim_start s in
  let '(sign, u) :=
    match t with
    | String "-" r => (-1, r)
    | String "+" r => (1, r)
    | _ => (1, t)
    end in
  if starts_with_digit u then Num (sign * digits_value u 0) else NaN.

(** *** String.prototype.includes *)

Fixpoint includes (needle hay : string) : bool :=
  String.prefix needle hay
  || match hay with
     | EmptyString => false
     | String _ r => includes needle r
     end.

(** *** JSON values

    Numbers are the integers.  The fields of an object are listed once
    each, and [assoc] reads the first of a name. *)

Inductive JSON : Type :=
| JNull
| JBool (b : bool)
| JNumber (z : Z)
| JString (s : string)
| JArray (items : list JSON)
| JObject (fields : list (string * JSON)).

(** A JavaScript value as the client sees one: [undefined], or what
    [JSON.parse], [response.json()] or [response.text()] can give. *)
Inductive Value : Type :=
| Undefined
| Val (j : JSON).

Definition truthy_json (j : JSON) : bool :=
  match j with
  | JNull => false
  | JBool b => b
  | JNumber z => negb (z =? 0)
  | JString s => truthy_string s
  | JArray _ | JObject _ => true
  end.

Definition truthy_value (v : Value) : bool :=
  match v with
  | Undefined => false
  | Val j => truthy_json j
  end.

Fixpoint assoc (k : string) (fields : list (string * JSON)) : Value :=
  match fields with
  | [] => Undefined
  | (n, j) :: r => if String.eqb n k then Val j else assoc k r
  end.

(** [j.name] for a name that no prototype defines ([message], [error]):
    [None] is the TypeError of a property read on [null]. *)
Definition get_field (j : JSON) (name : string) : option Value :=
  match j with
  | JNull => None
  | JObject fields => Some (assoc name fields)
  | _ => Some Undefined
  end.

(** Number of UTF-16 code units of a string given by its UTF-8 bytes: one
    per character, two for a character of four bytes. *)
Fixpoint utf16_length (s : string) : Z :=
  match s with
  | EmptyString => 0
  | String c r =>
      (if between 128 191 c then 0 else if between 240 255 c then 2 else 1)
      + utf16_length r
  end.

(** [v.length]; [None] is the TypeError on [undefined] and [null]. *)
Definition get_length (v : Value) : option Value :=
  match v with
  | Undefined | Val JNull => None
  | Val (JArray items) => Some (Val (JNumber (Z.of_nat (length items))))
  | Val (JString s) => Some (Val (JNumber (utf16_length s)))
  | Val (JObject fields) => Some (assoc "length" fields)
  | Val _ => Some Undefined
  end.

(** [v === n] for a number [n]. *)
Definition strict_eq_number (v : Value) (n : Z) : bool :=
  match v with
  | Val (JNumber z) => z =? n
  | _ => false
  end.

End JS.

(** ** Results of code that can throw *)

Inductive Result (E A : Type) : Type :=
| Ok (a : A)
| Throw (e : E).

Arguments Ok {E A} a.
Arguments Throw {E A} e.

(** ** Tenant credentials ([src/types/env.ts]) *)

Module Env.
Import JS.

Record TenantCredentials : Type := mkCredentials {
  baseUrl : option string;
  clientId : option string;
  clientSecret : option string;
  accessToken : option string
}.

(** The request's header map, as its [get] method. *)
Definition Headers := string -> option string.

Definition parseTenantCredentials (headers : Headers) : TenantCredentials :=
  {| baseUrl := or_undefined (headers "X-Looker-Base-URL");
     clientId := or_undefined (headers "X-Looker-Client-ID");
     clientSecret := or_undefined (headers "X-Looker-Client-Secret");
     accessToken := or_undefined (headers "X-Looker-Access-Token") |}.

(** [new Error(message)]. *)
Inductive Exception : Type :=
| Error (message : string).

Definition missing_base_url : string :=
  "Missing Looker base URL. Provide X-Looker-Base-URL header (e.g., https://company.looker.com).".

Definition missing_credentials : string :=
  "Missing credentials. Provide either X-Looker-Access-Token OR both X-Looker-Client-ID and X-Looker-Client-Secret headers.".

Definition validateCredentials (credentials : TenantCredentials)
  : Result Exception unit :=
  if negb (truthy (baseUrl credentials)) then Throw (Error missing_base_url)
  else if negb (truthy (accessToken credentials)) then
    if negb (truthy (clientId credentials))
       || negb (truthy (clientSecret credentials))
    then Throw (Error missing_credentials)
    else Ok tt
  else Ok tt.

(** A field is set when it holds a string that is not empty, which is the
    test the code applies to every field it reads. *)
Definition is_set (field : option string) : Prop := truthy field = true.

(** The condition the server reports as unauthorized before any network
    call: one of the two errors of [validateCredentials]. *)
Definition MissingCredentials (r : Result Exception unit) : Prop :=
  r = Throw (Error missing_base_url) \/ r = Throw (Error missing_credentials).

End Env.

(** ** The client ([src/client.ts]) *)

Module Client.
Import JS.
Import Env.

(** *** Errors ([src/utils/errors.ts] gives the classes; a value records
    the arguments its constructor was given) *)

Inductive ClientError : Type :=
| AuthenticationError (message : string)
| RateLimitError (message : string) (retryAfter : JsNum)
| LookerApiError (message : Value) (status : Z)
                 (code : option string) (retryable : option bool)
| TypeError      (* a property read on [undefined] or [null] *)
| SyntaxError    (* [response.json()] on a body that is not JSON *)
| NetworkError.  (* [fetch] rejects *)

(** *** HTTP *)

Record Request : Type := mkRequest {
  url : string;
  method : option string;
  headers : gmap string string;
  body : option string
}.

(** [RequestInit], the fields the client's callers use. *)
Record RequestInit : Type := mkInit {
  init_method : option string;
  init_headers : option (gmap string string);
  init_body : option string
}.

Definition no_options : RequestInit :=
  {| init_method := None; init_headers := None; init_body := None |}.

(** A response: [header] is [response.headers.get], [text] the body and
    [json] the body parsed, [None] when the body is not JSON. *)
Record Response (T : Type) : Type := mkResponse {
  status : Z;
  header : string -> option string;
  text : string;
  json : option T
}.

Arguments mkResponse {T}.
Arguments status {T}.
Arguments header {T}.
Arguments text {T}.
Arguments json {T}.

Definition ok {T} (r : Response T) : bool :=
  (200 <=? status r) && (status r <=? 299).

(** The login response at the type the code asserts for it,
    [{ access_token: string; expires_in?: number }]. *)
Record LoginData : Type := mkLoginData {
  access_token : string;
  expires_in : option Z
}.

(** The two places that call [fetch]. *)
Inductive Origin : Type :=
| Login
| Api.

(** *** The world outside the client

    [clock n] is what the [n]-th call of [Date.now()] returns; the servers
    answer the [n]-th [fetch] of the run, [None] when the call fails on the
    network.  [ticks] counts the readings of the clock and [log] lists the
    calls of [fetch], oldest first. *)
Record World : Type := mkWorld {
  clock : nat -> Z;
  login_server : nat -> Request -> option (Response LoginData);
  api_server : nat -> Request -> option (Response JSON);
  ticks : nat;
  log : list (Origin * Request)
}.

(** The fields of a [LookerClientImpl]. *)
Record LookerClientImpl : Type := mkClient {
  credentials : TenantCredentials;
  baseUrl : string;
  accessToken : option string;
  tokenExpiry : Z
}.

(** A method of the client: it reads and writes the object and the world,
    and returns or throws. *)
Definition M (A : Type) : Type :=
  LookerClientImpl -> World -> Result ClientError A * LookerClientImpl * World.

Definition ret {A} (a : A) : M A := fun this w => (Ok a, this, w).

Definition throw {A} (e : ClientError) : M A := fun this w => (Throw e, this, w).

Definition bind {A B} (m : M A) (f : A -> M B) : M B :=
  fun this w =>
    match m this w with
    | (Ok a, this', w') => f a this' w'
    | (Throw e, this', w') => (Throw e, this', w')
    end.

Notation "'let*' x := m 'in' k" := (bind m (fun x => k))
  (at level 10, x name, m at level 100, k at level 200).

Definition get_this : M LookerClientImpl := fun this w => (Ok this, this, w).

Definition set_accessToken (t : option string) : M unit :=
  fun this w =>
    (Ok tt,
     {| credentials := credentials this; baseUrl := baseUrl this;
        accessToken := t; tokenExpiry := tokenExpiry this |}, w).

Definition set_tokenExpiry (e : Z) : M unit :=
  fun this w =>
    (Ok tt,
     {| credentials := credentials this; baseUrl := baseUrl this;
        accessToken := accessToken this; tokenExpiry := e |}, w).

(** The world after one more reading of the clock. *)
Definition tick (w : World) : World :=
  {| clock := clock w; login_server := login_server w;
     api_server := api_server w; ticks := S (ticks w); log := log w |}.

Definition Date_now : M Z :=
  fun this w => (Ok (clock w (ticks w)), this, tick w).

Definition record (o : Origin) (r : Request) (w : World) : World :=
  {| clock := clock w; login_server := login_server w;
     api_server := api_server w; ticks := ticks w;
     log := log w ++ [(o, r)] |}.

Definition fetch_login (r : Request) : M (Response LoginData) :=
  fun this w =>
    match login_server w (length (log w)) r with
    | Some resp => (Ok resp, this, record Login r w)
    | None => (Throw NetworkError, this, record Login r w)
    end.

Definition fetch_api (r : Request) : M (Response JSON) :=
  fun this w =>
    match api_server w (length (log w)) r with
    | Some resp => (Ok resp, this, record Api r w)
    | None => (Throw NetworkError, this, record Api r w)
    end.

(** [response.json()]. *)
Definition json_of {T} (r : Response T) : M T :=
  match json r with
  | Some j => ret j
  | None => throw SyntaxError
  end.

(** *** Construction *)

Definition constructor (credentials : TenantCredentials) (w : World)
  : LookerClientImpl * World :=
  let this :=
    {| credentials := credentials;
       baseUrl := template (Env.baseUrl credentials) +:+ "/api/4.0";
       accessToken := None; tokenExpiry := 0 |} in
  if truthy (Env.accessToken credentials) then
    match (let* _ := set_accessToken (Env.accessToken credentials) in
           let* now := Date_now in
           set_tokenExpiry (now + 3600000)) this w with
    | (_, this', w') => (this', w')
    end
  else (this, w).

(** *** OAuth authentication *)

Definition no_credentials : string :=
  "No credentials provided. Include X-Looker-Client-ID and X-Looker-Client-Secret headers.".

Definition login_request (credentials : TenantCredentials) : Request :=
  {| url := template (Env.baseUrl credentials) +:+ "/api/4.0/login";
     method := Some "POST";
     headers := {[ "Content-Type" := "application/x-www-form-urlencoded" ]};
     body := Some ("client_id="
                   +:+ encodeURIComponent (template (clientId credentials))
                   +:+ "&client_secret="
                   +:+ encodeURIComponent (template (clientSecret credentials))) |}.

(** The test of the cache, [this.accessToken && Date.now() <
    this.tokenExpiry - 60000]: the token when the test holds.  The clock is
    read only when a token is there. *)
Definition cached_token : M (option string) :=
  let* this := get_this in
  match accessToken this with
  | Some t =>
      if truthy_string t then
        let* now := Date_now in
        ret (if now <? tokenExpiry this - 60000 then Some t else None)
      else ret None
  | None => ret None
  end.

(** The last part of [getAccessToken]: the login with the client
    credentials. *)
Definition oauth_login : M string :=
  let* this := get_this in
  if negb (truthy (clientId (credentials this)))
     || negb (truthy (clientSecret (credentials this)))
  then throw (AuthenticationError no_credentials)
  else
    let* response := fetch_login (login_request (credentials this)) in
    if negb (ok response) then
      throw (AuthenticationError ("Looker login failed: " +:+ text response))
    else
      let* data := json_of response in
      let* _ := set_accessToken (Some (access_token data)) in
      let* now := Date_now in
      let* _ := set_tokenExpiry (now + number_or (expires_in data) 3600 * 1000) in
      ret (access_token data).

Definition getAccessToken : M string :=
  let* hit := cached_token in
  match hit with
  | Some t => ret t
  | None =>
      let* this := get_this in
      match Env.accessToken (credentials this) with
      | Some supplied =>
          if truthy_string supplied then
            let* _ := set_accessToken (Some supplied) in
            let* now := Date_now in
            let* _ := set_tokenExpiry (now + 3600000) in
            ret supplied
          else oauth_login
      | None => oauth_login
      end
  end.

(** *** The HTTP request helper *)

Definition getAuthHeaders : M (gmap string string) :=
  let* t := getAccessToken in
  ret ({[ "Authorization" := "Bearer " +:+ t;
          "Content-Type" := "application/json" ]} : gmap string string).

(** [{ ...headers, ...(options.headers || {}) }]: the caller's entry wins. *)
Definition merge_headers (defaults : gmap string string) (options : RequestInit)
  : gmap string string :=
  default ∅ (init_headers options) ∪ defaults.

Definition api_request (this : LookerClientImpl) (endpoint : string)
    (options : RequestInit) (auth : gmap string string) : Request :=
  {| url := baseUrl this +:+ endpoint;
     method := init_method options;
     headers := merge_headers auth options;
     body := init_body options |}.

Definition generic_message (status : Z) : string :=
  "API error: " +:+ pretty status.

(** The message of the error for a response that is not ok.  A body that
    is not JSON, or that is the JSON [null], lands in the [catch]. *)
Definition error_message (response : Response JSON) : Value :=
  let message := generic_message (status response) in
  let caught :=
    Val (JString (if truthy_string (text response) then text response
                  else message)) in
  match json response with
  | None => caught
  | Some errorJson =>
      match get_field errorJson "message" with
      | None => caught
      | Some m =>
          if truthy_value m then m
          else match get_field errorJson "error" with
               | None => caught
               | Some e =>
                   if truthy_value e then e else Val (JString message)
               end
      end
  end.

Definition retry_after (response : Response JSON) : JsNum :=
  match header response "Retry-After" with
  | Some retryAfter =>
      if truthy_string retryAfter then parseInt retryAfter else Num 60
  | None => Num 60
  end.

Definition content_type (response : Response JSON) : string :=
  match header response "Content-Type" with
  | Some t => if truthy_string t then t else ""
  | None => ""
  end.

(** What [request] does with the response, from the test of the status on. *)
Definition respond (response : Response JSON) : M Value :=
  if status response =? 429 then
    throw (RateLimitError "Rate limit exceeded" (retry_after response))
  else if (status response =? 401) || (status response =? 403) then
    let* _ := set_accessToken None in
    let* _ := set_tokenExpiry 0 in
    throw (AuthenticationError
             "Authentication failed. Check your API credentials.")
  else if status response =? 404 then
    throw (LookerApiError (Val (JString ("Not found: " +:+ text response)))
                          404 (Some "NOT_FOUND") (Some false))
  else if negb (ok response) then
    throw (LookerApiError (error_message response) (status response)
                          None None)
  else if status response =? 204 then ret Undefined
  else if negb (includes "application/json" (content_type response)) then
    ret (Val (JString (text response)))
  else
    let* parsed := json_of response in
    ret (Val parsed).

Definition request (endpoint : string) (options : RequestInit) : M Value :=
  let* this := get_this in
  let* auth := getAuthHeaders in
  let* response := fetch_api (api_request this endpoint options auth) in
  respond response.

(** *** List operations *)

Record PaginationParams : Type := mkPagination {
  limit : option Z;
  offset : option Z;
  fields : option string
}.

Record PaginatedResponse : Type := mkPage {
  items : Value;
  count : Value;
  hasMore : bool
}.

(** [params?.field]. *)
Definition opt {P A} (params : option P) (field : P -> option A) : option A :=
  match params with
  | Some p => field p
  | None => None
  end.

Definition pagination_query (params : option PaginationParams) : string :=
  usp_toString
    (set_if_string "fields" (opt params fields)
       (set_if_number "offset" (opt params offset)
          (set_if_number "limit" (opt params limit) []))).

(** [x.length], a TypeError on [undefined] and [null]. *)
Definition length_of (v : Value) : M Value :=
  match get_length v with
  | Some n => ret n
  | None => throw TypeError
  end.

(** The body shared by [listLooks], [listDashboards], [listFolders] and
    [listUsers], which differ in the path only. *)
Definition list_page (path : string) (params : option PaginationParams)
  : M PaginatedResponse :=
  let* found := request (path +:+ "?" +:+ pagination_query params) no_options in
  let* n := length_of found in
  ret {| items := found;
         count := n;
         hasMore := strict_eq_number n (number_or (opt params limit) 100) |}.

Definition listLooks := list_page "/looks".
Definition listDashboards := list_page "/dashboards".
Definition listFolders := list_page "/folders".
Definition listUsers := list_page "/users".

(** The four paginated operations, each with its path. *)
Definition list_operations
  : list (string * (option PaginationParams -> M PaginatedResponse)) :=
  [ ("/looks", listLooks); ("/dashboards", listDashboards);
    ("/folders", listFolders); ("/users", listUsers) ].

Record ScheduledPlanFilter : Type := mkPlanFilter {
  user_id : option string;
  look_id : option string;
  dashboard_id : option string
}.

Definition listScheduledPlans (params : option ScheduledPlanFilter) : M Value :=
  request ("/scheduled_plans?"
           +:+ usp_toString (set_if_string "user_id" (opt params user_id) []))
          no_options.

(** *** Runs of a client *)

(** The login calls a run has made, oldest first. *)
Definition is_login (entry : Origin * Request) : bool :=
  match fst entry with
  | Login => true
  | Api => false
  end.

Definition logins (w : World) : list Request :=
  map snd (List.filter is_login (log w)).

(** What a caller does with a client: it asks for the token, or calls the
    API (every operation of the client is one call of [request]). *)
Inductive Call : Type :=
| CallGetToken
| CallRequest (endpoint : string) (options : RequestInit).

Definition run_call (call : Call) (s : LookerClientImpl * World) : LookerClientImpl * World :=
  match call with
  | CallGetToken =>
      let '(_, this, w) := getAccessToken (fst s) (snd s) in (this, w)
  | CallRequest endpoint options =>
      let '(_, this, w) := request endpoint options (fst s) (snd s) in (this, w)
  end.

Fixpoint run_calls (calls : list Call) (s : LookerClientImpl * World) : LookerClientImpl * World :=
  match calls with
  | [] => s
  | call :: rest => run_calls rest (run_call call s)
  end.

(** [request endpoint options] got [response] from the server: the token
    was there or could be had, which left the client in [this1], and the
    call went through, which left the world in [w1]. *)
Definition answered (endpoint : string) (options : RequestInit)
    (this : LookerClientImpl) (w : World)
    (response : Response JSON) (this1 : LookerClientImpl) (w1 : World) : Prop :=
  exists auth w0,
    getAuthHeaders this w = (Ok auth, this1, w0)
    /\ api_server w0 (length (log w0)) (api_request this endpoint options auth)
       = Some response
    /\ w1 = record Api (api_request this endpoint options auth) w0.

(** The fields that no method writes. *)
Definition same_tenant (this this' : LookerClientImpl) : Prop :=
  credentials this' = credentials this /\ baseUrl this' = baseUrl this.

(** A client whose credentials carry the token [t], and whose cache is
    empty or holds [t]. *)
Definition holds_supplied (t : string) (this : LookerClientImpl) : Prop :=
  Env.accessToken (credentials this) = Some t
  /\ (accessToken this = None \/ accessToken this = Some t).

(** The client as [request] leaves it on a 401 or 403. *)
Definition cleared (this : LookerClientImpl) : LookerClientImpl :=
  {| credentials := credentials this; baseUrl := baseUrl this;
     accessToken := None; tokenExpiry := 0 |}.

End Client.

(** ** The specification's wording, to compare the code with *)

Module Spec.
Import JS Env Client.

(** The seven classes of section 4.3, in its order. *)
Inductive Class : Type :=
| RateLimited
| AuthenticationFailed
| NotFound
| ApiError
| Empty
| RawText
| ParsedJson.

Definition rules : list ((Response JSON -> bool) * Class) :=
  [ (fun r => status r =? 429, RateLimited);
    (fun r => (status r =? 401) || (status r =? 403), AuthenticationFailed);
    (fun r => status r =? 404, NotFound);
    (fun r => negb (ok r), ApiError);
    (fun r => status r =? 204, Empty);
    (fun r => negb (includes "application/json" (content_type r)), RawText) ].

(** First match wins. *)
Fixpoint first_match (l : list ((Response JSON -> bool) * Class))
    (r : Response JSON) (otherwise : Class) : Class :=
  match l with
  | [] => otherwise
  | (test, class) :: rest =>
      if test r then class else first_match rest r otherwise
  end.

Definition classify (r : Response JSON) : Class :=
  first_match rules r ParsedJson.

(** What each class means for the call. *)
Definition outcome (class : Class) (r : Response JSON)
    (this : LookerClientImpl) (w : World) (res : Result ClientError Value * LookerClientImpl * World)
  : Prop :=
  match class with
  | RateLimited =>
      res = (Throw (RateLimitError "Rate limit exceeded" (retry_after r)), this, w)
  | AuthenticationFailed =>
      res = (Throw (AuthenticationError
                      "Authentication failed. Check your API credentials."),
             {| credentials := credentials this; baseUrl := baseUrl this;
                accessToken := None; tokenExpiry := 0 |}, w)
  | NotFound =>
      res = (Throw (LookerApiError
                      (Val (JString ("Not found: " +:+ text r)))
                      404 (Some "NOT_FOUND") (Some false)), this, w)
  | ApiError =>
      res = (Throw (LookerApiError (error_message r) (status r) None None),
             this, w)
  | Empty => res = (Ok Undefined, this, w)
  | RawText => res = (Ok (Val (JString (text r))), this, w)
  | ParsedJson =>
      res = (match json r with
             | Some j => Ok (Val j)
             | None => Throw SyntaxError
             end, this, w)
  end.

(** A field of the body read as JSON; [undefined] when the body is no
    JSON, or has no such field. *)
Definition body_field (r : Response JSON) (name : string) : Value :=
  match json r with
  | Some j => default Undefined (get_field j name)
  | None => Undefined
  end.

(** The first candidate that is there (truthy), else the fallback. *)
Fixpoint first_truthy (candidates : list Value) (fallback : Value) : Value :=
  match candidates with
  | [] => fallback
  | v :: rest => if truthy_value v then v else first_truthy rest fallback
  end.

(** The message as the claim words it: the [message] field, else the
    [error] field, else the raw text, else the generic string. *)
Definition message_chain (r : Response JSON) : Value :=
  first_truthy
    [body_field r "message"; body_field r "error"; Val (JString (text r))]
    (Val (JString (generic_message (status r)))).

(** The body parsed, and to a value whose fields can be read. *)
Definition readable_json (r : Response JSON) : bool :=
  match json r with
  | Some JNull | None => false
  | Some _ => true
  end.

(** The message in two chains: the fields for a body that was read as
    JSON, the raw text for any other. *)
Definition message_by_body (r : Response JSON) : Value :=
  if readable_json r then
    first_truthy [body_field r "message"; body_field r "error"]
                 (Val (JString (generic_message (status r))))
  else
    first_truthy [Val (JString (text r))]
                 (Val (JString (generic_message (status r)))).

(** The limit [hasMore] compares with, as the claim words it: the
    requested limit, or 100 when no limit was given. *)
Definition limit_or_100 (params : option PaginationParams) : Z :=
  match opt params limit with
  | Some l => l
  | None => 100
  end.

End Spec.

(** ** Concrete tenants, servers and responses *)

Module Examples.
Import JS Env Client.

Definition tenant : string := "https://x.looker.com".

Definition oauth_credentials : TenantCredentials :=
  mkCredentials (Some tenant) (Some "a") (Some "b") None.

Definition token_credentials : TenantCredentials :=
  mkCredentials (Some tenant) None None (Some "tok").

(** A header map with one header. *)
Definition one_header (name value : string) : string -> option string :=
  fun n => if String.eqb n name then Some value else None.

Definition no_header : string -> option string := fun _ => None.

(** A string between double quotes. *)
Definition quoted (s : string) : string :=
  String (ascii_of_N 34) (s +:+ String (ascii_of_N 34) EmptyString).

(** The good answer of the login endpoint, for a token that needs no
    escape: its text and what the text parses to. *)
Definition login_ok (t : string) (seconds : option Z) : Response LoginData :=
  {| status := 200; header := one_header "Content-Type" "application/json";
     text := "{" +:+ quoted "access_token" +:+ ":" +:+ quoted t
             +:+ match seconds with
                 | Some n => "," +:+ quoted "expires_in" +:+ ":" +:+ pretty n
                 | None => ""
                 end +:+ "}";
     json := Some {| access_token := t; expires_in := seconds |} |}.

(** Servers that give the same answer to every call, and a clock that
    advances by one second at each reading. *)
Definition world (login : Response LoginData) (api : Response JSON) : World :=
  {| clock := fun n => 1700000000000 + 1000 * Z.of_nat n;
     login_server := fun _ _ => Some login;
     api_server := fun _ _ => Some api;
     ticks := 0;
     log := [] |}.

(** A client of the tenant, just made, and the world it is in. *)
Definition fresh (credentials : TenantCredentials)
    (login : Response LoginData) (api : Response JSON) : LookerClientImpl * World :=
  constructor credentials (world login api).

(** 429 with [Retry-After] as an HTTP date, the second form RFC 9110 gives
    the header. *)
Definition http_date_429 : Response JSON :=
  {| status := 429;
     header := one_header "Retry-After" "Wed, 21 Oct 2015 07:28:00 GMT";
     text := ""; json := None |}.

Definition seconds_429 : Response JSON :=
  {| status := 429; header := one_header "Retry-After" "30";
     text := ""; json := None |}.

Definition bare_429 : Response JSON :=
  {| status := 429; header := no_header; text := ""; json := None |}.

Definition unauthorized_401 : Response JSON :=
  {| status := 401; header := no_header; text := ""; json := None |}.

(** 500 with the body [{}]. *)
Definition empty_object_500 : Response JSON :=
  {| status := 500; header := one_header "Content-Type" "application/json";
     text := "{}"; json := Some (JObject []) |}.

(** 204 as a server sends it after a DELETE: no content type, no body. *)
Definition no_content : Response JSON :=
  {| status := 204; header := no_header; text := ""; json := None |}.

Definition csv_200 : Response JSON :=
  {| status := 200; header := one_header "Content-Type" "text/csv";
     text := "id,title"; json := None |}.

(** 200 with a JSON array of [n] empty objects. *)
Fixpoint objects_text (n : nat) : string :=
  match n with
  | O => ""
  | S O => "{}"
  | S m => "{}," +:+ objects_text m
  end.

Definition array_200 (n : nat) : Response JSON :=
  {| status := 200; header := one_header "Content-Type" "application/json";
     text := "[" +:+ objects_text n +:+ "]";
     json := Some (JArray (repeat (JObject []) n)) |}.

(** [{ limit: n }]. *)
Definition with_limit (n : Z) : option PaginationParams :=
  Some {| limit := Some n; offset := None; fields := None |}.

End Examples.

(** ** Configuration ([src/types/env.ts], second half) *)

Module Config.
Import JS.

(** The keys of the worker's environment: three variables and three
    bindings. *)
Inductive EnvKey : Type :=
| CHARACTER_LIMIT
| DEFAULT_PAGE_SIZE
| MAX_PAGE_SIZE
| OAUTH_KV
| MCP_SESSIONS
| AI.

(** What [env[key]] can be: a string, an object (a binding), or nothing. *)
Inductive EnvValue : Type :=
| EnvString (value : string)
| EnvBinding
| EnvUndefined.

Definition Env := EnvKey -> EnvValue.

Definition getEnvNumber (env : Env) (key : EnvKey) (defaultValue : Z) : Z :=
  match env key with
  | EnvString value =>
      match parseInt value with
      | NaN => defaultValue
      | Num parsed => parsed
      end
  | EnvBinding | EnvUndefined => defaultValue
  end.

Definition getCharacterLimit (env : Env) : Z :=
  getEnvNumber env CHARACTER_LIMIT 50000.

Definition getDefaultPageSize (env : Env) : Z :=
  getEnvNumber env DEFAULT_PAGE_SIZE 20.

Definition getMaxPageSize (env : Env) : Z :=
  getEnvNumber env MAX_PAGE_SIZE 100.

End Config.

(** ** The worker's entry point ([src/index.ts]) *)

Module Worker.
Import JS Env.

(** What the worker answers: one of its four own responses, or the answer
    of the MCP handler over a server whose client has the credentials. *)
Inductive Reply : Type :=
| Health
| Unauthorized (message : string)
| Mcp (credentials : TenantCredentials)
| SseUnavailable
| Documentation.

(** The handler, on the path of the URL, the method and the headers. *)
Definition fetch (pathname method : string) (headers : Headers) : Reply :=
  if String.eqb pathname "/health" then Health
  else if String.eqb pathname "/mcp" && String.eqb method "POST" then
    let credentials := parseTenantCredentials headers in
    match validateCredentials credentials with
    | Throw (Error message) => Unauthorized message
    | Ok _ => Mcp credentials
    end
  else if String.eqb pathname "/sse" then SseUnavailable
  else Documentation.

(** The status of the worker's own responses. *)
Definition status_of (reply : Reply) : option Z :=
  match reply with
  | Health => Some 200
  | Unauthorized _ => Some 401
  | Mcp _ => None
  | SseUnavailable => Some 501
  | Documentation => Some 200
  end.

End Worker.

(** ** More operations of the client ([src/client.ts]) *)

Module Operations.
Import JS Env Client.

Record Connection : Type := mkConnection {
  connected : bool;
  message : string
}.

(** [describe error] is [error instanceof Error ? error.message :
    'Connection failed'], which the classes of [src/utils/errors.ts] and
    the runtime decide. *)
Definition testConnection (describe : ClientError -> string) : M Connection :=
  fun this w =>
    match request "/user" no_options this w with
    | (Ok _, this', w') =>
        (Ok {| connected := true;
               message := "Successfully connected to Looker API" |}, this', w')
    | (Throw error, this', w') =>
        (Ok {| connected := false; message := describe error |}, this', w')
    end.

Record LookSearch : Type := mkLookSearch {
  title : option string;
  folder_id : option string;
  search_limit : option Z          (* [limit] *)
}.

Definition search_query (params : LookSearch) : string :=
  usp_toString
    (set_if_number "limit" (search_limit params)
       (set_if_string "folder_id" (folder_id params)
          (set_if_string "title" (title params) []))).

Definition searchLooks (params : LookSearch) : M Value :=
  request ("/looks/search?" +:+ search_query params) no_options.

Definition getScheduledPlan (scheduledPlanId : string) : M Value :=
  request ("/scheduled_plans/" +:+ scheduledPlanId) no_options.

Definition getScheduledPlansForLook (lookId : string) : M Value :=
  request ("/scheduled_plans/look/" +:+ lookId) no_options.

(** How often a character occurs in a string. *)
Fixpoint count_char (c : ascii) (s : string) : nat :=
  match s with
  | EmptyString => O
  | String x r => (if Ascii.eqb x c then 1 else 0)%nat + count_char c r
  end.

(** How many of the search parameters are sent. *)
Definition sent_parameters (params : LookSearch) : nat :=
  ((if truthy (title params) then 1 else 0)
   + (if truthy (folder_id params) then 1 else 0)
   + (if truthy_number (search_limit params) then 1 else 0))%nat.

(** Two worlds with the same clock and the same servers. *)
Definition same_oracles (w w' : World) : Prop :=
  clock w' = clock w
  /\ login_server w' = login_server w
  /\ api_server w' = api_server w.

End Operations.

(** ** More concrete cases *)

Module MoreExamples.
Import JS Env Client Examples Config Operations.

Definition env_of (limit : string) : Config.Env :=
  fun key =>
    match key with
    | CHARACTER_LIMIT => EnvString limit
    | OAUTH_KV => EnvBinding
    | _ => EnvUndefined
    end.

Definition login_refused : Response LoginData :=
  {| status := 403; header := no_header; text := "bad secret"; json := None |}.

Definition no_secret_credentials : TenantCredentials :=
  mkCredentials (Some tenant) (Some "a") None None.

Definition server_error_500 : Response JSON :=
  {| status := 500; header := no_header; text := "boom"; json := None |}.

Definition retry_429 (seconds : Z) : Response JSON :=
  {| status := 429; header := one_header "Retry-After" (pretty seconds);
     text := ""; json := None |}.

(** The message of an error, for the errors that carry one. *)
Definition describe (error : ClientError) : string :=
  match error with
  | AuthenticationError m | RateLimitError m _ => m
  | LookerApiError (Val (JString m)) _ _ _ => m
  | _ => "Connection failed"
  end.

(** A client with a cached token that expires at [expiry]. *)
Definition holding (t : string) (expiry : Z) : LookerClientImpl :=
  {| credentials := oauth_credentials;
     baseUrl := tenant +:+ "/api/4.0";
     accessToken := Some t; tokenExpiry := expiry |}.

(** A login server that answers [T1] first and [T2] from then on, and an
    API that answers 401 to the first call it sees and an empty list to the
    others. *)
Definition rotating_world : World :=
  {| clock := fun n => 1700000000000 + 1000 * Z.of_nat n;
     login_server := fun n _ =>
       Some (login_ok (if Nat.eqb n 0 then "T1" else "T2") (Some 3600));
     api_server := fun n _ =>
       Some (if Nat.eqb n 1 then unauthorized_401 else array_200 0);
     ticks := 0;
     log := [] |}.

End MoreExamples.

(** * Properties *)

Import JS Env Client Spec Examples.

(** ** Tools *)

Ltac unfold_monad :=
  unfold bind, ret, throw, get_this, set_accessToken, set_tokenExpiry, Date_now,
    tick, json_of in *; simpl in *.

Lemma truthy_string_true (s : string) : truthy_string s = true <-> s <> "".
Proof. destruct s; simpl; split; intros; congruence. Qed.

(** The credentials read from the headers have no empty field: what is not
    set is absent.  So does an empty header. *)
Lemma parseTenantCredentials_set_or_absent (headers : Headers) :
  let cr := parseTenantCredentials headers in
  Forall (fun field => field = None \/ is_set field)
         [Env.baseUrl cr; clientId cr; clientSecret cr; Env.accessToken cr].
Proof.
  assert (H : forall o, or_undefined o = None \/ is_set (or_undefined o)).
  { intros [[| c s] |]; simpl; auto. right. reflexivity. }
  simpl. repeat (constructor; [apply H |]). constructor.
Qed.

(** A call that was answered is [respond] on the answer. *)
Lemma request_answered endpoint options this w response this1 w1 :
  answered endpoint options this w response this1 w1 ->
  request endpoint options this w = respond response this1 w1.
Proof.
  intros (auth & w0 & Hauth & Hsrv & ->).
  unfold request, bind, get_this. rewrite Hauth.
  unfold fetch_api. rewrite Hsrv. reflexivity.
Qed.

(** ** Credential validation *)

Section Validation.

(** C5.  [validateCredentials] is a function of the credentials alone (its
    type has neither the client nor the world in it), and it fails with the
    missing-credentials condition exactly when the base URL is unset, or
    when the access token is unset and the client id and the client secret
    are not both set; in every other case it returns.  So [validate({})]
    and [validate({baseUrl})] fail, [validate({baseUrl, accessToken})]
    succeeds, and [validate({baseUrl, clientId})] fails. *)
Theorem validateCredentials_missing_exactly :
  (forall cr : TenantCredentials,
      MissingCredentials (validateCredentials cr) <->
      (~ is_set (Env.baseUrl cr)
       \/ (~ is_set (Env.accessToken cr)
           /\ ~ (is_set (clientId cr) /\ is_set (clientSecret cr)))))
  /\ (forall cr : TenantCredentials,
         validateCredentials cr = Ok tt
         \/ MissingCredentials (validateCredentials cr))
  /\ MissingCredentials (validateCredentials (mkCredentials None None None None))
  /\ MissingCredentials
       (validateCredentials (mkCredentials (Some tenant) None None None))
  /\ validateCredentials (mkCredentials (Some tenant) None None (Some "tok"))
     = Ok tt
  /\ MissingCredentials
       (validateCredentials (mkCredentials (Some tenant) (Some "a") None None)).
Proof.
  split; [| split; [| repeat split]].
  - intros [b i s t]. unfold MissingCredentials, validateCredentials, is_set.
    simpl.
    destruct (truthy b), (truthy t), (truthy i), (truthy s); simpl;
      split; intros H;
      try (left; reflexivity); try (right; reflexivity);
      try (destruct H as [H | H]; discriminate H);
      try (left; discriminate); try (right; split; [discriminate|]);
      try (intros [? ?]; discriminate);
      try (destruct H as [H | [H1 H2]];
           [ exfalso; apply H; reflexivity
           | try (exfalso; apply H1; reflexivity);
             try (exfalso; apply H2; split; reflexivity) ]).
  - intros [b i s t]. unfold MissingCredentials, validateCredentials. simpl.
    destruct (truthy b), (truthy t), (truthy i), (truthy s); simpl; auto.
  - left. reflexivity.
  - right. reflexivity.
  - right. reflexivity.
Qed.

End Validation.

(** ** Classification of responses *)

Section Classification.

Variables (this : LookerClientImpl) (w : World).

(** [respond] follows the order of the specification. *)
Lemma respond_classified (r : Response JSON) :
  outcome (classify r) r this w (respond r this w).
Proof.
  unfold classify, rules, first_match, respond.
  destruct (status r =? 429); [reflexivity |].
  destruct ((status r =? 401) || (status r =? 403)); [reflexivity |].
  destruct (status r =? 404); [reflexivity |].
  destruct (negb (ok r)); [reflexivity |].
  destruct (status r =? 204); [reflexivity |].
  destruct (negb (includes "application/json" (content_type r)));
    [reflexivity |].
  unfold outcome, bind, json_of. destruct (json r); reflexivity.
Qed.

Lemma respond_429 (r : Response JSON) :
  status r = 429 ->
  respond r this w
  = (Throw (RateLimitError "Rate limit exceeded" (retry_after r)), this, w).
Proof. intros E. unfold respond. rewrite E. reflexivity. Qed.

Lemma respond_204 (r : Response JSON) :
  status r = 204 -> respond r this w = (Ok Undefined, this, w).
Proof. intros E. unfold respond, ok. rewrite E. reflexivity. Qed.

Lemma respond_raw_text (r : Response JSON) :
  ok r = true -> status r <> 204 ->
  includes "application/json" (content_type r) = false ->
  respond r this w = (Ok (Val (JString (text r))), this, w).
Proof.
  intros Hok H204 Hjson. unfold respond. unfold ok in Hok.
  apply andb_true_iff in Hok as [Hlo Hhi].
  apply Z.leb_le in Hlo. apply Z.leb_le in Hhi.
  assert (E429 : (status r =? 429) = false) by (apply Z.eqb_neq; lia).
  assert (E401 : (status r =? 401) = false) by (apply Z.eqb_neq; lia).
  assert (E403 : (status r =? 403) = false) by (apply Z.eqb_neq; lia).
  assert (E404 : (status r =? 404) = false) by (apply Z.eqb_neq; lia).
  assert (E204 : (status r =? 204) = false) by (apply Z.eqb_neq; lia).
  rewrite E429, E401, E403, E404, E204. simpl.
  unfold ok.
  assert (Eok : (200 <=? status r) && (status r <=? 299) = true).
  { apply andb_true_iff. split; apply Z.leb_le; lia. }
  rewrite Eok, Hjson. reflexivity.
Qed.

End Classification.

(** The message of an error is read off the body in two chains. *)
Lemma error_message_by_body (r : Response JSON) :
  error_message r = message_by_body r.
Proof.
  unfold error_message, message_by_body, readable_json, body_field.
  destruct (json r) as [j |]; [| simpl; destruct (text r); reflexivity].
  destruct j; simpl;
    try reflexivity;
    try (destruct (text r); reflexivity).
Qed.

(** ** Rate limiting *)

(** The retry-after value in the three cases the code tells apart. *)
Lemma retry_after_cases (r : Response JSON) :
  (header r "Retry-After" = None -> retry_after r = Num 60)
  /\ (header r "Retry-After" = Some "" -> retry_after r = Num 60)
  /\ (forall v, header r "Retry-After" = Some v -> v <> "" ->
                retry_after r = parseInt v).
Proof.
  unfold retry_after. repeat split.
  - intros ->. reflexivity.
  - intros ->. reflexivity.
  - intros v -> Hv. destruct v; [congruence | reflexivity].
Qed.

(** [Retry-After: 30] gives 30, no header gives 60, and a date gives
    [NaN]. *)
Lemma retry_after_examples :
  retry_after seconds_429 = Num 30
  /\ retry_after bare_429 = Num 60
  /\ retry_after http_date_429 = NaN.
Proof. repeat split. Qed.

(** C1.  A 429 whose [Retry-After] header is an HTTP date: the call fails
    with [RateLimitError] and the value it carries is [NaN], not 60, for
    every client, endpoint and world in which the call is answered so. *)
Theorem rate_limit_http_date_gives_NaN
    (endpoint : string) (options : RequestInit)
    (this : LookerClientImpl) (w : World) (this1 : LookerClientImpl) (w1 : World) :
  answered endpoint options this w http_date_429 this1 w1 ->
  request endpoint options this w
  = (Throw (RateLimitError "Rate limit exceeded" NaN), this1, w1).
Proof.
  intros H. rewrite (request_answered _ _ _ _ _ _ _ H).
  rewrite respond_429 by reflexivity. reflexivity.
Qed.

Lemma rate_limit_http_date_witness :
  let s := fresh oauth_credentials (login_ok "T1" (Some 3600)) http_date_429 in
  exists this1 w1,
    answered "/looks" no_options (fst s) (snd s) http_date_429 this1 w1
    /\ request "/looks" no_options (fst s) (snd s)
       = (Throw (RateLimitError "Rate limit exceeded" NaN), this1, w1).
Proof.
  intros s.
  assert (H : exists this1 w1,
             answered "/looks" no_options (fst s) (snd s) http_date_429 this1 w1).
  { eexists. eexists. eexists. eexists.
    split; [reflexivity | split; reflexivity]. }
  destruct H as (this1 & w1 & H).
  exists this1, w1. split; [exact H |].
  exact (rate_limit_http_date_gives_NaN _ _ _ _ _ _ H).
Defined.

(** ** The order of the tests, and the message of an API error *)

(** C6, as stated, fails: a 500 whose body is the JSON object [{}] has
    neither field, and its raw text [{}] is there, yet the message is the
    generic string. *)
Lemma message_chain_fails_on_empty_object :
  let s := fresh oauth_credentials (login_ok "T1" (Some 3600)) empty_object_500 in
  fst (fst (request "/looks" no_options (fst s) (snd s)))
  = Throw (LookerApiError (Val (JString "API error: 500")) 500 None None)
  /\ message_chain empty_object_500 = Val (JString "{}")
  /\ error_message empty_object_500 <> message_chain empty_object_500.
Proof.
  split; [reflexivity | split; [reflexivity | discriminate]].
Qed.

(** C6, amended.  A call that is answered is classified by the first test
    that matches, in the order 429, 401 or 403, 404, any other status
    outside 200..299, 204, a content type without [application/json], JSON;
    and the message of the API error is, for a body that parses as JSON
    (and not to [null]), its [message] field, else its [error] field, else
    the generic string, and for any other body the raw text, else the
    generic string. *)
Theorem request_classifies_in_order
    (endpoint : string) (options : RequestInit)
    (this : LookerClientImpl) (w : World)
    (r : Response JSON) (this1 : LookerClientImpl) (w1 : World) :
  answered endpoint options this w r this1 w1 ->
  outcome (classify r) r this1 w1 (request endpoint options this w)
  /\ error_message r = message_by_body r.
Proof.
  intros H. rewrite (request_answered _ _ _ _ _ _ _ H). split.
  - apply respond_classified.
  - apply error_message_by_body.
Qed.

Lemma request_classifies_in_order_witness :
  let s := fresh oauth_credentials (login_ok "T1" (Some 3600)) empty_object_500 in
  exists this1 w1,
    answered "/looks" no_options (fst s) (snd s) empty_object_500 this1 w1
    /\ outcome ApiError empty_object_500 this1 w1
         (request "/looks" no_options (fst s) (snd s))
    /\ error_message empty_object_500 = Val (JString "API error: 500").
Proof.
  intros s.
  assert (H : exists this1 w1,
             answered "/looks" no_options (fst s) (snd s)
                      empty_object_500 this1 w1).
  { eexists. eexists. eexists. eexists.
    split; [reflexivity | split; reflexivity]. }
  destruct H as (this1 & w1 & H).
  exists this1, w1. split; [exact H |].
  destruct (request_classifies_in_order _ _ _ _ _ _ _ H) as [Hc Hm].
  split; [exact Hc | reflexivity].
Defined.

(** ** 204 and bodies that are not JSON *)

(** C7.  A call answered with 204 returns [undefined] and nothing is
    decoded; and, the 204 rule coming first in the order of section 4.3, a
    call answered with any other status of 200..299 and a content type
    without [application/json] (such as [text/csv]) returns the body as a
    string, whatever the body would parse to.  So a response of 200..299
    whose content type is not JSON falls under one of these two rules, the
    first for 204 and the second for the rest. *)
Theorem no_content_and_raw_text
    (endpoint : string) (options : RequestInit)
    (this : LookerClientImpl) (w : World)
    (r : Response JSON) (this1 : LookerClientImpl) (w1 : World) :
  answered endpoint options this w r this1 w1 ->
  (status r = 204 ->
   request endpoint options this w = (Ok Undefined, this1, w1))
  /\ (ok r = true -> status r <> 204 ->
      includes "application/json" (content_type r) = false ->
      request endpoint options this w
      = (Ok (Val (JString (text r))), this1, w1))
  /\ (ok r = true ->
      includes "application/json" (content_type r) = false ->
      classify r = (if status r =? 204 then Empty else RawText)).
Proof.
  intros H. rewrite (request_answered _ _ _ _ _ _ _ H).
  split; [| split].
  - apply respond_204.
  - apply respond_raw_text.
  - intros Hok Hjson. unfold classify, rules, first_match.
    unfold ok in *. apply andb_true_iff in Hok as [Hlo Hhi].
    apply Z.leb_le in Hlo. apply Z.leb_le in Hhi.
    assert (E429 : (status r =? 429) = false) by (apply Z.eqb_neq; lia).
    assert (E401 : (status r =? 401) = false) by (apply Z.eqb_neq; lia).
    assert (E403 : (status r =? 403) = false) by (apply Z.eqb_neq; lia).
    assert (E404 : (status r =? 404) = false) by (apply Z.eqb_neq; lia).
    assert (Eok : (200 <=? status r) && (status r <=? 299) = true).
    { apply andb_true_iff. split; apply Z.leb_le; lia. }
    rewrite E429, E401, E403, E404, Eok, Hjson. simpl.
    destruct (status r =? 204); reflexivity.
Qed.

Lemma no_content_and_raw_text_witness :
  let s := fresh oauth_credentials (login_ok "T1" (Some 3600)) csv_200 in
  let s' := fresh oauth_credentials (login_ok "T1" (Some 3600)) no_content in
  (exists this1 w1,
      answered "/looks/7/run/csv" no_options (fst s) (snd s) csv_200 this1 w1
      /\ request "/looks/7/run/csv" no_options (fst s) (snd s)
         = (Ok (Val (JString "id,title")), this1, w1))
  /\ (exists this1 w1,
         answered "/looks/7" no_options (fst s') (snd s') no_content this1 w1
         /\ request "/looks/7" no_options (fst s') (snd s')
            = (Ok Undefined, this1, w1)).
Proof.
  intros s s'.
  assert (H : exists this1 w1,
             answered "/looks/7/run/csv" no_options (fst s) (snd s)
                      csv_200 this1 w1).
  { eexists. eexists. eexists. eexists.
    split; [reflexivity | split; reflexivity]. }
  assert (H' : exists this1 w1,
             answered "/looks/7" no_options (fst s') (snd s')
                      no_content this1 w1).
  { eexists. eexists. eexists. eexists.
    split; [reflexivity | split; reflexivity]. }
  destruct H as (this1 & w1 & H). destruct H' as (this1' & w1' & H').
  split.
  - exists this1, w1. split; [exact H |].
    destruct (no_content_and_raw_text _ _ _ _ _ _ _ H) as (_ & Hraw & _).
    apply Hraw; [reflexivity | discriminate | reflexivity].
  - exists this1', w1'. split; [exact H' |].
    destruct (no_content_and_raw_text _ _ _ _ _ _ _ H') as (Hnone & _).
    apply Hnone. reflexivity.
Defined.

(** ** The token *)

Section Token.

Lemma logins_record_api (r : Request) (w : World) :
  logins (record Api r w) = logins w.
Proof.
  unfold logins, record. simpl. rewrite List.filter_app. simpl.
  rewrite app_nil_r. reflexivity.
Qed.

Lemma logins_record_login (r : Request) (w : World) :
  logins (record Login r w) = (logins w ++ [r])%list.
Proof.
  unfold logins, record. simpl. rewrite List.filter_app. simpl.
  rewrite map_app. reflexivity.
Qed.

(** With a token supplied in the credentials, and a cache that is empty or
    holds that token, [getAccessToken] returns the supplied token and calls
    no server: either the cache is hit and nothing changes, or the token is
    installed again, valid for one hour from the reading of the clock. *)
Lemma getAccessToken_supplied (this : LookerClientImpl) (w : World) (t : string) :
  Env.accessToken (credentials this) = Some t -> t <> "" ->
  (accessToken this = None \/ accessToken this = Some t) ->
  exists this' w',
    getAccessToken this w = (Ok t, this', w')
    /\ log w' = log w
    /\ credentials this' = credentials this
    /\ baseUrl this' = baseUrl this
    /\ accessToken this' = Some t
    /\ ((this' = this /\ clock w (ticks w) < tokenExpiry this - 60000)
        \/ tokenExpiry this' = clock w' (pred (ticks w')) + 3600000).
Proof.
  intros Hcr Ht Htok.
  apply truthy_string_true in Ht.
  unfold getAccessToken, cached_token. unfold_monad.
  destruct Htok as [Htok | Htok]; rewrite Htok.
  - rewrite Hcr, Ht. simpl. eexists. eexists.
    split; [reflexivity |]. simpl. repeat split; auto.
  - rewrite Ht.
    destruct (clock w (ticks w) <? tokenExpiry this - 60000) eqn:E.
    + eexists. eexists. split; [reflexivity |]. simpl.
      repeat split; auto. left. split; [reflexivity |].
      apply Z.ltb_lt. exact E.
    + rewrite Hcr, Ht. simpl. eexists. eexists.
      split; [reflexivity |]. simpl. repeat split; auto.
Qed.

Lemma cached_token_frame (this : LookerClientImpl) (w : World) :
  exists hit w',
    cached_token this w = (Ok hit, this, w')
    /\ log w' = log w
    /\ (accessToken this = None -> hit = None /\ w' = w).
Proof.
  unfold cached_token. unfold_monad.
  destruct (accessToken this) as [t |].
  - destruct (truthy_string t).
    + eexists. eexists. split; [reflexivity |]. split; [reflexivity |].
      discriminate.
    + eexists. eexists. split; [reflexivity |]. split; [reflexivity |].
      discriminate.
  - eexists. eexists. split; [reflexivity |]. auto.
Qed.

(** The login with the client credentials sends exactly one call, the
    login request, whatever comes back; only a good answer changes the
    client. *)
Lemma oauth_login_sends_one (this : LookerClientImpl) (w : World) :
  truthy (clientId (credentials this)) = true ->
  truthy (clientSecret (credentials this)) = true ->
  exists res this' w',
    oauth_login this w = (res, this', w')
    /\ log w' = (log w ++ [(Login, login_request (credentials this))])%list
    /\ same_tenant this this'.
Proof.
  intros Hid Hsecret. unfold oauth_login, fetch_login. unfold_monad.
  rewrite Hid, Hsecret. simpl.
  destruct (login_server w (length (log w)) (login_request (credentials this)))
    as [resp |]; simpl.
  - destruct (ok resp); simpl.
    + destruct (json resp) as [data |]; simpl;
        eexists; eexists; eexists; (split; [reflexivity |]);
        simpl; split; try reflexivity; split; reflexivity.
    + eexists. eexists. eexists. split; [reflexivity |].
      simpl. split; [reflexivity | split; reflexivity].
  - eexists. eexists. eexists. split; [reflexivity |].
    simpl. split; [reflexivity | split; reflexivity].
Qed.

(** A good answer of the login server: the token is cached, and it
    expires [expires_in] seconds, or 3600 when that is missing or 0, after
    the reading of the clock that follows the answer. *)
Lemma oauth_login_caches (this : LookerClientImpl) (w : World)
    (resp : Response LoginData) (data : LoginData) :
  truthy (clientId (credentials this)) = true ->
  truthy (clientSecret (credentials this)) = true ->
  login_server w (length (log w)) (login_request (credentials this))
  = Some resp ->
  ok resp = true -> json resp = Some data ->
  oauth_login this w
  = (Ok (access_token data),
     {| credentials := credentials this; baseUrl := baseUrl this;
        accessToken := Some (access_token data);
        tokenExpiry := clock w (ticks w)
                       + number_or (expires_in data) 3600 * 1000 |},
     tick (record Login (login_request (credentials this)) w)).
Proof.
  intros Hid Hsecret Hsrv Hok Hjson.
  unfold oauth_login, fetch_login. unfold_monad.
  rewrite Hid, Hsecret. simpl. rewrite Hsrv. simpl.
  rewrite Hok. simpl. rewrite Hjson. reflexivity.
Qed.

(** With an empty cache and no token in the credentials,
    [getAccessToken] is the login. *)
Lemma getAccessToken_is_login (this : LookerClientImpl) (w : World) :
  accessToken this = None ->
  truthy (Env.accessToken (credentials this)) = false ->
  getAccessToken this w = oauth_login this w.
Proof.
  intros Htok Hsupplied.
  unfold getAccessToken, cached_token. unfold_monad. rewrite Htok.
  destruct (Env.accessToken (credentials this)) as [t |]; [| reflexivity].
  simpl in Hsupplied. rewrite Hsupplied. reflexivity.
Qed.

(** A token in the cache that is not empty and has more than 60 seconds
    left is returned as it is: no call, no write. *)
Lemma getAccessToken_hit (this : LookerClientImpl) (w : World) (t : string) :
  accessToken this = Some t -> t <> "" ->
  clock w (ticks w) < tokenExpiry this - 60000 ->
  getAccessToken this w = (Ok t, this, tick w).
Proof.
  intros Htok Ht Hfresh. apply truthy_string_true in Ht.
  apply Z.ltb_lt in Hfresh.
  unfold getAccessToken, cached_token. unfold_monad.
  rewrite Htok, Ht. unfold tick. rewrite Hfresh. reflexivity.
Qed.

(** No method writes the credentials or the base URL, and [getAccessToken]
    sends nothing but login requests. *)
Lemma getAccessToken_frame (this : LookerClientImpl) (w : World) :
  exists res this' w',
    getAccessToken this w = (res, this', w')
    /\ same_tenant this this'
    /\ (log w' = log w
        \/ log w' = (log w ++ [(Login, login_request (credentials this))])%list).
Proof.
  unfold getAccessToken, bind.
  destruct (cached_token_frame this w) as (hit & w1 & Hc & Hlog & _).
  rewrite Hc.
  destruct hit as [t |].
  - eexists. eexists. eexists. split; [reflexivity |].
    split; [split; reflexivity | left; exact Hlog].
  - unfold get_this.
    assert (Hl : exists res this' w',
               oauth_login this w1 = (res, this', w')
               /\ same_tenant this this'
               /\ (log w' = log w
                   \/ log w' = (log w
                                ++ [(Login, login_request (credentials this))])%list)).
    { destruct (truthy (clientId (credentials this))) eqn:Hid;
        [destruct (truthy (clientSecret (credentials this))) eqn:Hsecret |].
      - destruct (oauth_login_sends_one this w1 Hid Hsecret)
          as (res & this' & w' & E & Hl & Hs).
        exists res, this', w'. split; [exact E |]. split; [exact Hs |].
        right. rewrite Hl, Hlog. reflexivity.
      - unfold oauth_login. unfold_monad. rewrite Hid, Hsecret. simpl.
        eexists. eexists. eexists. split; [reflexivity |].
        split; [split; reflexivity | left; exact Hlog].
      - unfold oauth_login. unfold_monad. rewrite Hid. simpl.
        eexists. eexists. eexists. split; [reflexivity |].
        split; [split; reflexivity | left; exact Hlog]. }
    destruct (Env.accessToken (credentials this)) as [supplied |]; [| exact Hl].
    destruct (truthy_string supplied); [| exact Hl].
    unfold_monad. eexists. eexists. eexists. split; [reflexivity |].
    simpl. split; [split; reflexivity | left; exact Hlog].
Qed.

(** [respond] leaves the world as it is, and the client too, but for the
    token, which it may clear. *)
Lemma respond_frame (r : Response JSON) (this : LookerClientImpl) (w : World) :
  exists res this',
    respond r this w = (res, this', w)
    /\ same_tenant this this'
    /\ (accessToken this' = accessToken this \/ accessToken this' = None).
Proof.
  unfold respond.
  destruct (status r =? 429);
    [eexists; eexists; split; [reflexivity |];
     split; [split; reflexivity | left; reflexivity] |].
  destruct ((status r =? 401) || (status r =? 403));
    [unfold_monad; eexists; eexists; split; [reflexivity |];
     split; [split; reflexivity | right; reflexivity] |].
  destruct (status r =? 404);
    [eexists; eexists; split; [reflexivity |];
     split; [split; reflexivity | left; reflexivity] |].
  destruct (negb (ok r));
    [eexists; eexists; split; [reflexivity |];
     split; [split; reflexivity | left; reflexivity] |].
  destruct (status r =? 204);
    [eexists; eexists; split; [reflexivity |];
     split; [split; reflexivity | left; reflexivity] |].
  destruct (negb (includes "application/json" (content_type r)));
    [eexists; eexists; split; [reflexivity |];
     split; [split; reflexivity | left; reflexivity] |].
  unfold_monad. destruct (json r);
    eexists; eexists; (split; [reflexivity |]);
    (split; [split; reflexivity | left; reflexivity]).
Qed.

(** What [request] sends: once the token is there, one call to the API,
    whatever the answer; and nothing when the token cannot be had. *)
Lemma request_sends (endpoint : string) (options : RequestInit)
    (this : LookerClientImpl) (w : World) :
  exists res this' w',
    request endpoint options this w = (res, this', w')
    /\ match getAccessToken this w with
       | (Ok t, this1, w1) =>
           log w' = (log w1
                     ++ [(Api,
                          api_request this endpoint options
                            {[ "Authorization" := "Bearer " +:+ t;
                               "Content-Type" := "application/json" ]})])%list
           /\ same_tenant this1 this'
           /\ (accessToken this' = accessToken this1 \/ accessToken this' = None)
       | (Throw e, this1, w1) => res = Throw e /\ this' = this1 /\ w' = w1
       end.
Proof.
  unfold request, getAuthHeaders, bind, get_this.
  destruct (getAccessToken this w) as [[[t | e] this1] w1].
  - unfold ret, fetch_api.
    set (sent := api_request this endpoint options _).
    destruct (api_server w1 (length (log w1)) sent) as [resp |].
    + destruct (respond_frame resp this1 (record Api sent w1))
        as (res & this' & E & Hs & Ht).
      exists res, this', (record Api sent w1). rewrite E.
      split; [reflexivity |]. split; [reflexivity |]. split; assumption.
    + eexists. eexists. eexists. split; [reflexivity |].
      split; [reflexivity |]. split; [split; reflexivity | left; reflexivity].
  - eexists. eexists. eexists. split; [reflexivity |]. auto.
Qed.

Lemma logins_of_log (w w' : World) :
  log w' = log w -> logins w' = logins w.
Proof. unfold logins. intros ->. reflexivity. Qed.

Lemma logins_after_api (w w' : World) (sent : Request) :
  log w' = (log w ++ [(Api, sent)])%list -> logins w' = logins w.
Proof.
  unfold logins. intros ->. rewrite List.filter_app. simpl.
  rewrite app_nil_r. reflexivity.
Qed.

Lemma constructor_supplied (cr : TenantCredentials) (w : World) (t : string) :
  Env.accessToken cr = Some t -> t <> "" ->
  constructor cr w
  = ({| credentials := cr;
        baseUrl := template (Env.baseUrl cr) +:+ "/api/4.0";
        accessToken := Some t;
        tokenExpiry := clock w (ticks w) + 3600000 |}, tick w).
Proof.
  intros Hcr Ht. apply truthy_string_true in Ht.
  unfold constructor. rewrite Hcr. simpl. rewrite Ht. reflexivity.
Qed.

Lemma constructor_oauth (cr : TenantCredentials) (w : World) :
  truthy (Env.accessToken cr) = false ->
  constructor cr w
  = ({| credentials := cr;
        baseUrl := template (Env.baseUrl cr) +:+ "/api/4.0";
        accessToken := None; tokenExpiry := 0 |}, w).
Proof. intros H. unfold constructor. rewrite H. reflexivity. Qed.

(** One call keeps a supplied token in place and sends no login. *)
Lemma run_call_supplied (t : string) (call : Call) (s : LookerClientImpl * World) :
  t <> "" -> holds_supplied t (fst s) ->
  holds_supplied t (fst (run_call call s))
  /\ logins (snd (run_call call s)) = logins (snd s).
Proof.
  intros Ht [Hcr Htok]. destruct s as [this w]. simpl in *.
  destruct (getAccessToken_supplied this w t Hcr Ht Htok)
    as (this1 & w1 & E & Hlog & Hcr1 & _ & Htok1 & _).
  destruct call as [| endpoint options]; simpl.
  - rewrite E. simpl. split.
    + split; [congruence | right; exact Htok1].
    + apply logins_of_log. exact Hlog.
  - destruct (request_sends endpoint options this w)
      as (res & this' & w' & Er & Hm).
    rewrite Er. rewrite E in Hm. destruct Hm as (Hl & [Hc' _] & Ht').
    simpl. split.
    + split; [congruence |].
      destruct Ht' as [Ht' | Ht']; [right | left]; congruence.
    + rewrite (logins_after_api _ _ _ Hl). apply logins_of_log. exact Hlog.
Qed.

Lemma run_calls_supplied (t : string) (calls : list Call) :
  t <> "" ->
  forall s : LookerClientImpl * World,
    holds_supplied t (fst s) ->
    holds_supplied t (fst (run_calls calls s))
    /\ logins (snd (run_calls calls s)) = logins (snd s).
Proof.
  intros Ht. induction calls as [| call rest IH]; intros s Hs; simpl.
  - split; [exact Hs | reflexivity].
  - destruct (run_call_supplied t call s Ht Hs) as [Hs' Hl'].
    destruct (IH _ Hs') as [Hs'' Hl'']. split; [exact Hs'' | congruence].
Qed.

(** No call writes the credentials or the base URL. *)
Lemma run_call_same_tenant (call : Call) (s : LookerClientImpl * World) :
  same_tenant (fst s) (fst (run_call call s)).
Proof.
  destruct s as [this w]. destruct call as [| endpoint options]; simpl.
  - destruct (getAccessToken_frame this w) as (res & this' & w' & E & Hs & _).
    rewrite E. exact Hs.
  - destruct (request_sends endpoint options this w)
      as (res & this' & w' & Er & Hm).
    rewrite Er. simpl.
    destruct (getAccessToken_frame this w) as (r1 & this1 & w1 & E & Hs & _).
    rewrite E in Hm. destruct r1 as [t | e].
    + destruct Hm as (_ & [Hc Hb] & _). destruct Hs as [Hc1 Hb1].
      split; congruence.
    + destruct Hm as (_ & -> & _). exact Hs.
Qed.

Lemma run_calls_same_tenant (calls : list Call) :
  forall s : LookerClientImpl * World, same_tenant (fst s) (fst (run_calls calls s)).
Proof.
  induction calls as [| call rest IH]; intros s; simpl.
  - split; reflexivity.
  - destruct (run_call_same_tenant call s) as [Hc Hb].
    destruct (IH (run_call call s)) as [Hc' Hb'].
    split; congruence.
Qed.

End Token.

(** C3.  A client made from credentials that carry an access token starts
    with that token in its cache, valid for one hour from the reading of
    the clock; after any sequence of calls ([getToken] or API calls, with
    any answers, 401 and 403 among them) no login request has been sent;
    and [getToken] then returns the supplied token without sending
    anything, either from the cache or by installing it again for one hour
    from the reading of the clock, whatever the client id and secret are. *)
Theorem supplied_token_never_logs_in
    (cr : TenantCredentials) (t : string) (w : World) (calls : list Call) :
  Env.accessToken cr = Some t -> t <> "" ->
  let s0 := constructor cr w in
  let s := run_calls calls s0 in
  (accessToken (fst s0) = Some t
   /\ tokenExpiry (fst s0) = clock w (ticks w) + 3600000
   /\ logins (snd s0) = logins w)
  /\ logins (snd s) = logins w
  /\ exists this' w',
       getAccessToken (fst s) (snd s) = (Ok t, this', w')
       /\ log w' = log (snd s)
       /\ accessToken this' = Some t
       /\ ((this' = fst s
            /\ clock (snd s) (ticks (snd s)) < tokenExpiry (fst s) - 60000)
           \/ tokenExpiry this' = clock w' (pred (ticks w')) + 3600000).
Proof.
  intros Hcr Ht s0 s. subst s s0.
  rewrite (constructor_supplied cr w t Hcr Ht).
  set (s0 := (_, tick w)).
  assert (H0 : holds_supplied t (fst s0)).
  { split; [exact Hcr | right; reflexivity]. }
  destruct (run_calls_supplied t calls Ht s0 H0) as [[Hc Htok] Hl].
  split; [repeat split |]. split; [exact Hl |].
  destruct (getAccessToken_supplied _ (snd (run_calls calls s0)) t Hc Ht Htok)
    as (this' & w' & E & Hlog & _ & _ & Htok' & Hwin).
  exists this', w'. repeat split; assumption.
Qed.

Lemma supplied_token_never_logs_in_witness :
  let s0 := fresh token_credentials (login_ok "T1" None) unauthorized_401 in
  let s := run_calls [CallRequest "/looks" no_options; CallGetToken;
                      CallRequest "/user" no_options] s0 in
  logins (snd s) = []
  /\ fst (fst (getAccessToken (fst s) (snd s))) = Ok "tok".
Proof.
  destruct (supplied_token_never_logs_in token_credentials "tok"
              (world (login_ok "T1" None) unauthorized_401)
              [CallRequest "/looks" no_options; CallGetToken;
               CallRequest "/user" no_options]
              eq_refl ltac:(discriminate))
    as (_ & Hl & this' & w' & E & _).
  split; [exact Hl |]. unfold fresh. rewrite E. reflexivity.
Defined.

(** ** 401 and 403 *)

(** C2, as stated, fails: with an access token in the credentials, the
    [getToken] that follows a 401 sends no login request; it installs the
    supplied token again. *)
Lemma no_login_after_401_with_supplied_token :
  let s := fresh token_credentials (login_ok "T1" None) unauthorized_401 in
  let '(r1, this1, w1) := request "/looks" no_options (fst s) (snd s) in
  let '(r2, this2, w2) := getAccessToken this1 w1 in
  r1 = Throw (AuthenticationError
                "Authentication failed. Check your API credentials.")
  /\ accessToken this1 = None /\ tokenExpiry this1 = 0
  /\ r2 = Ok "tok" /\ logins w2 = [] /\ log w2 = log w1.
Proof. repeat split. Qed.

(** C2, amended.  A call answered with 401 or 403 goes out once, clears
    the cache (no token, expiry 0) and fails with the authentication error;
    the [getToken] that follows sends the login request when the
    credentials carry no access token and carry both the client id and the
    client secret, and when they carry an access token it sends nothing
    and installs that token again. *)
Theorem auth_failure_clears_token
    (endpoint : string) (options : RequestInit)
    (this : LookerClientImpl) (w : World)
    (r : Response JSON) (this1 : LookerClientImpl) (w1 : World) :
  answered endpoint options this w r this1 w1 ->
  status r = 401 \/ status r = 403 ->
  request endpoint options this w
  = (Throw (AuthenticationError
              "Authentication failed. Check your API credentials."),
     cleared this1, w1)
  /\ (exists auth w0,
         getAuthHeaders this w = (Ok auth, this1, w0)
         /\ log w1
            = (log w0 ++ [(Api, api_request this endpoint options auth)])%list)
  /\ (truthy (Env.accessToken (credentials this1)) = false ->
      is_set (clientId (credentials this1)) ->
      is_set (clientSecret (credentials this1)) ->
      exists res this2 w2,
        getAccessToken (cleared this1) w1 = (res, this2, w2)
        /\ log w2 = (log w1 ++ [(Login, login_request (credentials this1))])%list)
  /\ (forall t, Env.accessToken (credentials this1) = Some t -> t <> "" ->
                getAccessToken (cleared this1) w1
                = (Ok t,
                   {| credentials := credentials this1; baseUrl := baseUrl this1;
                      accessToken := Some t;
                      tokenExpiry := clock w1 (ticks w1) + 3600000 |},
                   tick w1)).
Proof.
  intros H Hst. rewrite (request_answered _ _ _ _ _ _ _ H).
  split; [| split; [| split]].
  - unfold respond, cleared.
    destruct Hst as [-> | ->]; reflexivity.
  - destruct H as (auth & w0 & Hauth & _ & ->).
    exists auth, w0. split; [exact Hauth | reflexivity].
  - intros Hno Hid Hsecret.
    rewrite getAccessToken_is_login by (try reflexivity; exact Hno).
    destruct (oauth_login_sends_one (cleared this1) w1 Hid Hsecret)
      as (res & this2 & w2 & E & Hl & _).
    exists res, this2, w2. split; [exact E | exact Hl].
  - intros t Hcr Ht. apply truthy_string_true in Ht.
    unfold getAccessToken, cached_token, cleared. unfold_monad.
    rewrite Hcr, Ht. reflexivity.
Qed.

Lemma auth_failure_clears_token_witness :
  let s := fresh oauth_credentials (login_ok "T1" None) unauthorized_401 in
  exists this1 w1,
    answered "/looks" no_options (fst s) (snd s) unauthorized_401 this1 w1
    /\ request "/looks" no_options (fst s) (snd s)
       = (Throw (AuthenticationError
                   "Authentication failed. Check your API credentials."),
          cleared this1, w1)
    /\ length (logins w1) = 1%nat
    /\ length (logins (snd (getAccessToken (cleared this1) w1))) = 2%nat.
Proof.
  intros s.
  assert (H : exists this1 w1,
             answered "/looks" no_options (fst s) (snd s)
                      unauthorized_401 this1 w1
             /\ length (logins w1) = 1%nat
             /\ length (logins (snd (getAccessToken (cleared this1) w1)))
                = 2%nat).
  { eexists. eexists. split.
    - eexists. eexists. split; [reflexivity | split; reflexivity].
    - split; reflexivity. }
  destruct H as (this1 & w1 & H & H1 & H2).
  exists this1, w1. split; [exact H |].
  destruct (auth_failure_clears_token _ _ _ _ _ _ _ H (or_introl eq_refl))
    as (E & _).
  split; [exact E | split; [exact H1 | exact H2]].
Defined.

(** ** Login and the cache *)




(** ** What goes out *)

Lemma append_assoc (a b c : string) : (a +:+ b) +:+ c = a +:+ b +:+ c.
Proof.
  induction a as [| x a IH]; [reflexivity |].
  change (String x ((a +:+ b) +:+ c) = String x (a +:+ b +:+ c)).
  rewrite IH. reflexivity.
Qed.

Lemma constructor_tenant (cr : TenantCredentials) (w : World) :
  credentials (fst (constructor cr w)) = cr
  /\ baseUrl (fst (constructor cr w)) = template (Env.baseUrl cr) +:+ "/api/4.0".
Proof.
  unfold constructor. destruct (truthy (Env.accessToken cr)); split; reflexivity.
Qed.

(** C8.  In every state a client of credentials [cr] can reach, a call of
    [request] whose token is [t] sends one call: to the URL made of the base
    URL, [/api/4.0] and the endpoint, with the caller's method and body, and
    with the caller's headers laid over [Authorization: Bearer t] and
    [Content-Type: application/json].  The only login call [getToken] can
    send is a POST to the base URL followed by [/api/4.0/login], with a
    form-encoded body of [client_id] and [client_secret].  And with the
    tenant [https://x.looker.com], the credentials [a] and [b] and a login
    that answers [T1], listing one look sends [Authorization: Bearer T1]. *)
Theorem request_url_headers_and_login
    (cr : TenantCredentials) (w : World) (calls : list Call)
    (endpoint : string) (options : RequestInit) :
  let s := run_calls calls (constructor cr w) in
  (forall (t : string) (this1 : LookerClientImpl) (w1 : World),
      getAccessToken (fst s) (snd s) = (Ok t, this1, w1) ->
      exists sent : Request,
        log (snd (request endpoint options (fst s) (snd s)))
        = (log w1 ++ [(Api, sent)])%list
        /\ url sent = template (Env.baseUrl cr) +:+ "/api/4.0" +:+ endpoint
        /\ method sent = init_method options
        /\ body sent = init_body options
        /\ headers sent
           = default ∅ (init_headers options)
             ∪ {[ "Authorization" := "Bearer " +:+ t;
                  "Content-Type" := "application/json" ]}
        /\ (forall name value,
               default ∅ (init_headers options) !! name = Some value ->
               headers sent !! name = Some value)
        /\ (default ∅ (init_headers options) !! "Authorization" = None ->
            headers sent !! "Authorization" = Some ("Bearer " +:+ t))
        /\ (default ∅ (init_headers options) !! "Content-Type" = None ->
            headers sent !! "Content-Type" = Some "application/json"))
  /\ (forall res this1 w1,
         getAccessToken (fst s) (snd s) = (res, this1, w1) ->
         log w1 = log (snd s)
         \/ log w1 = (log (snd s) ++ [(Login, login_request cr)])%list)
  /\ (url (login_request cr) = template (Env.baseUrl cr) +:+ "/api/4.0/login"
      /\ method (login_request cr) = Some "POST"
      /\ headers (login_request cr) !! "Content-Type"
         = Some "application/x-www-form-urlencoded"
      /\ body (login_request cr)
         = Some ("client_id="
                 +:+ encodeURIComponent (template (clientId cr))
                 +:+ "&client_secret="
                 +:+ encodeURIComponent (template (clientSecret cr))))
  /\ (let s0 := fresh oauth_credentials (login_ok "T1" (Some 10)) (array_200 1) in
      map (fun entry => (fst entry, url (snd entry), body (snd entry),
                         headers (snd entry) !! "Authorization"))
          (log (snd (listLooks (with_limit 1) (fst s0) (snd s0))))
      = [ (Login, "https://x.looker.com/api/4.0/login",
           Some "client_id=a&client_secret=b", None);
          (Api, "https://x.looker.com/api/4.0/looks?limit=1", None,
           Some "Bearer T1") ]).
Proof.
  intros s.
  assert (Hs : credentials (fst s) = cr
               /\ baseUrl (fst s) = template (Env.baseUrl cr) +:+ "/api/4.0").
  { destruct (constructor_tenant cr w) as [Hc0 Hb0].
    destruct (run_calls_same_tenant calls (constructor cr w)) as [Hc Hb].
    subst s. split; congruence. }
  destruct Hs as [Hc Hb]. clearbody s.
  split; [| split; [| split]].
  - intros t this1 w1 E.
    destruct (request_sends endpoint options (fst s) (snd s))
      as (res & this' & w' & Er & Hm).
    rewrite E in Hm. destruct Hm as (Hl & _). rewrite Er. simpl.
    eexists. split; [exact Hl |]. simpl.
    split; [rewrite Hb; apply append_assoc |].
    split; [reflexivity |]. split; [reflexivity |].
    split; [reflexivity |]. unfold merge_headers.
    split; [| split].
    + intros name value Hv. apply lookup_union_Some_l. exact Hv.
    + intros Hn. rewrite lookup_union_r by exact Hn. reflexivity.
    + intros Hn. rewrite lookup_union_r by exact Hn. reflexivity.
  - intros res this1 w1 E.
    destruct (getAccessToken_frame (fst s) (snd s))
      as (res' & this' & w' & E' & _ & Hl).
    rewrite E' in E. injection E as _ _ ->. rewrite Hc in Hl. exact Hl.
  - repeat split.
  - reflexivity.
Qed.

(** ** Scheduled plans *)

(** C9.  [listScheduledPlans] asks for [/scheduled_plans?] followed by
    [user_id=...] when a user id is given and by nothing otherwise, so two
    parameter objects with the same [user_id] make the same call whatever
    their [look_id] and [dashboard_id] are, and one without [user_id] makes
    the call of no parameters at all. *)
Theorem listScheduledPlans_forwards_user_id_only :
  (forall (params : option ScheduledPlanFilter) (this : LookerClientImpl) (w : World),
      listScheduledPlans params this w
      = request ("/scheduled_plans?"
                 +:+ match opt params user_id with
                     | Some u =>
                         if truthy_string u then "user_id=" +:+ form_encode u
                         else ""
                     | None => ""
                     end) no_options this w)
  /\ (forall (u l d l' d' : option string) (this : LookerClientImpl) (w : World),
         listScheduledPlans (Some (mkPlanFilter u l d)) this w
         = listScheduledPlans (Some (mkPlanFilter u l' d')) this w)
  /\ (forall (l d : option string) (this : LookerClientImpl) (w : World),
         listScheduledPlans (Some (mkPlanFilter None l d)) this w
         = listScheduledPlans None this w).
Proof.
  split; [| split].
  - intros params this w. unfold listScheduledPlans, set_if_string.
    destruct params as [[u l d] |]; simpl; [| reflexivity].
    destruct u as [u |]; simpl; [| reflexivity].
    destruct (truthy_string u); reflexivity.
  - reflexivity.
  - reflexivity.
Qed.

(** ** Pages *)

(** A page made from a JSON array, for any limit: a limit of 0 counts as
    no limit at all. *)
Lemma page_of_array
    (path : string) (params : option PaginationParams)
    (this : LookerClientImpl) (w : World)
    (found : list JSON) (this1 : LookerClientImpl) (w1 : World) :
  request (path +:+ "?" +:+ pagination_query params) no_options this w
  = (Ok (Val (JArray found)), this1, w1) ->
  list_page path params this w
  = (Ok {| items := Val (JArray found);
           count := Val (JNumber (Z.of_nat (length found)));
           hasMore := Z.of_nat (length found)
                      =? number_or (opt params limit) 100 |}, this1, w1).
Proof.
  intros E. unfold list_page, bind. rewrite E. reflexivity.
Qed.

(** C10.  When the server answers [listLooks], [listDashboards],
    [listFolders] or [listUsers] with a JSON array, the page holds that
    array, its [count] is the length of the array, and [hasMore] is true
    exactly when the length equals the requested limit, or equals 100 when
    no limit was given (100, not the default page size 20).  A requested
    limit is not 0: the tools that call these operations take a limit of
    at least 1. *)
Theorem page_count_and_hasMore
    (path : string) (operation : option PaginationParams -> M PaginatedResponse)
    (params : option PaginationParams) (this : LookerClientImpl) (w : World)
    (found : list JSON) (this1 : LookerClientImpl) (w1 : World) :
  In (path, operation) list_operations ->
  opt params limit <> Some 0 ->
  request (path +:+ "?" +:+ pagination_query params) no_options this w
  = (Ok (Val (JArray found)), this1, w1) ->
  exists page : PaginatedResponse,
    operation params this w = (Ok page, this1, w1)
    /\ items page = Val (JArray found)
    /\ count page = Val (JNumber (Z.of_nat (length found)))
    /\ (hasMore page = true <->
        Z.of_nat (length found) = limit_or_100 params)
    /\ (opt params limit = None ->
        (hasMore page = true <-> length found = 100%nat)).
Proof.
  intros Hop Hlimit E.
  assert (Hpage : operation = list_page path).
  { simpl in Hop.
    destruct Hop as [H | [H | [H | [H | []]]]]; inversion H; reflexivity. }
  subst operation. rewrite (page_of_array _ _ _ _ _ _ _ E).
  eexists. split; [reflexivity |]. simpl.
  split; [reflexivity |]. split; [reflexivity |].
  assert (Hn : number_or (opt params limit) 100 = limit_or_100 params).
  { unfold number_or, limit_or_100.
    destruct (opt params limit) as [n |]; [| reflexivity].
    destruct (Z.eqb_spec n 0) as [-> | _]; [congruence | reflexivity]. }
  rewrite Hn. split; [apply Z.eqb_eq |].
  intros Hnone. unfold limit_or_100. rewrite Hnone.
  rewrite Z.eqb_eq. lia.
Qed.

Lemma page_count_and_hasMore_witness :
  let s := fresh oauth_credentials (login_ok "T1" None) (array_200 2) in
  exists page this1 w1,
    listDashboards (with_limit 2) (fst s) (snd s) = (Ok page, this1, w1)
    /\ count page = Val (JNumber 2) /\ hasMore page = true.
Proof.
  intros s.
  assert (E : exists this1 w1,
             request ("/dashboards" +:+ "?" +:+ pagination_query (with_limit 2))
                     no_options (fst s) (snd s)
             = (Ok (Val (JArray (repeat (JObject []) 2))), this1, w1)).
  { eexists. eexists. reflexivity. }
  destruct E as (this1 & w1 & E).
  destruct (page_count_and_hasMore "/dashboards" listDashboards (with_limit 2)
              (fst s) (snd s) _ this1 w1
              (or_intror (or_introl eq_refl)) ltac:(discriminate) E)
    as (page & Ep & _ & Hcount & Hmore & _).
  exists page, this1, w1. split; [exact Ep |]. split; [exact Hcount |].
  apply Hmore. reflexivity.
Defined.

(** * More properties of the code *)

Import Config Worker Operations MoreExamples.

(** ** Numbers read from strings *)

Section ParseInt.

Lemma pretty_char_digit (x : N) :
  (x < 10)%N ->
  is_digit (pretty_N_char x) = true
  /\ Z.of_N (code (pretty_N_char x) - 48) = Z.of_N x.
Proof.
  intros H.
  assert (E : (x = 0 \/ x = 1 \/ x = 2 \/ x = 3 \/ x = 4 \/ x = 5
               \/ x = 6 \/ x = 7 \/ x = 8 \/ x = 9)%N) by lia.
  repeat (destruct E as [-> | E]; [split; reflexivity |]).
  subst x. split; reflexivity.
Qed.

(** The digits that [pretty] writes in front of [s] are read back, most
    significant first, on top of what was read before. *)
Lemma digits_value_pretty_go (x : N) :
  exists k : Z,
    forall (s : string) (acc : Z),
      digits_value (pretty_N_go x s) acc
      = digits_value s (acc * k + Z.of_N x).
Proof.
  induction (N.lt_wf_0 x) as [x _ IH].
  destruct (N.eq_dec x 0%N) as [-> | Hx].
  - exists 1. intros s acc. rewrite pretty_N_go_0. f_equal. lia.
  - assert (Hpos : (0 < x)%N) by lia.
    destruct (IH (x / 10)%N) as [k Hk].
    { apply N.div_lt; lia. }
    exists (10 * k). intros s acc.
    rewrite pretty_N_go_step by exact Hpos. rewrite Hk.
    destruct (pretty_char_digit (x mod 10)%N) as [Hd Hv].
    { apply N.mod_lt. discriminate. }
    simpl. rewrite Hd, Hv. f_equal.
    rewrite (N.div_mod x 10) at 3 by discriminate.
    rewrite N2Z.inj_add, N2Z.inj_mul. simpl Z.of_N. lia.
Qed.

Lemma pretty_go_starts_with_digit (x : N) :
  (0 < x)%N ->
  forall s : string, starts_with_digit (pretty_N_go x s) = true.
Proof.
  induction (N.lt_wf_0 x) as [x _ IH]. intros Hpos s.
  rewrite pretty_N_go_step by exact Hpos.
  destruct (N.eq_dec (x / 10)%N 0%N) as [E | E].
  - rewrite E, pretty_N_go_0. simpl.
    apply pretty_char_digit. apply N.mod_lt. discriminate.
  - apply IH; [apply N.div_lt; [exact Hpos | reflexivity] |].
    apply N.neq_0_lt_0. exact E.
Qed.

(** Nothing is trimmed from a string that starts with a digit, and no sign
    is read from it. *)
Lemma parseInt_digits (s : string) :
  starts_with_digit s = true -> parseInt s = Num (digits_value s 0).
Proof.
  destruct s as [| a s1]; [discriminate |]. simpl. intros Ha.
  assert (Htrim : trim_start (String a s1) = String a s1).
  { destruct a as [[] [] [] [] [] [] [] []];
      try (vm_compute in Ha; discriminate Ha);
      (destruct s1 as [| b [| c s3]]; reflexivity). }
  unfold parseInt. rewrite Htrim.
  destruct a as [[] [] [] [] [] [] [] []];
    try (vm_compute in Ha; discriminate Ha);
    (cbv beta iota zeta; simpl starts_with_digit; cbv beta iota;
     rewrite Z.mul_1_l; reflexivity).
Qed.

Lemma parseInt_minus_digits (s : string) :
  starts_with_digit s = true ->
  parseInt (String "-" s) = Num (- digits_value s 0).
Proof.
  intros Hs.
  assert (Htrim : trim_start (String "-" s) = String "-" s).
  { destruct s as [| b [| c s3]]; reflexivity. }
  unfold parseInt. rewrite Htrim. cbv beta iota zeta. rewrite Hs.
  f_equal; lia.
Qed.

Lemma pretty_positive_go (p : positive) :
  pretty p = pretty_N_go (N.pos p) "".
Proof. reflexivity. Qed.

(** The decimal numeral of an integer starts with a digit, or with [-] and
    then a digit, and it is read back as that integer. *)
Lemma parseInt_pretty (z : Z) : parseInt (pretty z) = Num z.
Proof.
  destruct z as [| p | p].
  - reflexivity.
  - change (pretty (Z.pos p)) with (pretty p). rewrite pretty_positive_go.
    rewrite parseInt_digits
      by (apply pretty_go_starts_with_digit; reflexivity).
    destruct (digits_value_pretty_go (N.pos p)) as [k Hk].
    rewrite Hk. reflexivity.
  - change (pretty (Z.neg p)) with (String "-" (pretty p)).
    rewrite pretty_positive_go.
    rewrite parseInt_minus_digits
      by (apply pretty_go_starts_with_digit; reflexivity).
    destruct (digits_value_pretty_go (N.pos p)) as [k Hk].
    rewrite Hk. reflexivity.
Qed.

Lemma pretty_not_empty (z : Z) : truthy_string (pretty z) = true.
Proof.
  destruct z as [| p | p]; try reflexivity.
  change (pretty (Z.pos p)) with (pretty p). rewrite pretty_positive_go.
  pose proof (pretty_go_starts_with_digit (N.pos p) eq_refl "") as H.
  destruct (pretty_N_go (N.pos p) ""); [discriminate H | reflexivity].
Qed.

End ParseInt.

(** ** Configuration values *)

(** X1.  A variable that holds the decimal numeral of an integer between
    -2^53 and 2^53, where a JavaScript number is exact, is read back as
    that integer whatever the default is: a value that parses is never
    replaced and never checked against a range. *)
Theorem getEnvNumber_reads_back
    (env : Config.Env) (key : EnvKey) (z defaultValue : Z) :
  Z.abs z <= 2 ^ 53 ->
  env key = EnvString (pretty z) ->
  getEnvNumber env key defaultValue = z.
Proof.
  intros _ E. unfold getEnvNumber. rewrite E, parseInt_pretty. reflexivity.
Qed.

Lemma getEnvNumber_reads_back_witness :
  getCharacterLimit (env_of (pretty (-250))) = -250.
Proof.
  exact (getEnvNumber_reads_back (env_of (pretty (-250))) CHARACTER_LIMIT
           (-250) 50000 ltac:(vm_compute; discriminate) eq_refl).
Defined.

(** X2.  A 429 whose [Retry-After] is the decimal numeral of an integer
    between -2^53 and 2^53, where a JavaScript number is exact, fails with
    [RateLimitError] carrying exactly that integer; a negative one is
    passed on as it is. *)
Theorem rate_limit_carries_seconds
    (endpoint : string) (options : RequestInit)
    (this : LookerClientImpl) (w : World)
    (r : Response JSON) (this1 : LookerClientImpl) (w1 : World) (n : Z) :
  answered endpoint options this w r this1 w1 ->
  status r = 429 ->
  Z.abs n <= 2 ^ 53 ->
  header r "Retry-After" = Some (pretty n) ->
  request endpoint options this w
  = (Throw (RateLimitError "Rate limit exceeded" (Num n)), this1, w1).
Proof.
  intros H Hst _ Hh. rewrite (request_answered _ _ _ _ _ _ _ H).
  rewrite respond_429 by exact Hst.
  unfold retry_after. rewrite Hh, pretty_not_empty, parseInt_pretty.
  reflexivity.
Qed.

Lemma rate_limit_carries_seconds_witness :
  let s := fresh oauth_credentials (login_ok "T1" None) (retry_429 120) in
  exists this1 w1,
    answered "/looks" no_options (fst s) (snd s) (retry_429 120) this1 w1
    /\ request "/looks" no_options (fst s) (snd s)
       = (Throw (RateLimitError "Rate limit exceeded" (Num 120)), this1, w1).
Proof.
  intros s.
  assert (H : exists this1 w1,
             answered "/looks" no_options (fst s) (snd s)
                      (retry_429 120) this1 w1).
  { eexists. eexists. eexists. eexists.
    split; [reflexivity | split; reflexivity]. }
  destruct H as (this1 & w1 & H).
  exists this1, w1. split; [exact H |].
  exact (rate_limit_carries_seconds _ _ _ _ _ _ _ 120 H eq_refl
           ltac:(vm_compute; discriminate) eq_refl).
Defined.

(** ** The worker *)

Lemma truthy_or_undefined (o : option string) :
  truthy (or_undefined o) = truthy o.
Proof. destruct o as [[| c s] |]; reflexivity. Qed.

Lemma validateCredentials_ok (cr : TenantCredentials) :
  validateCredentials cr = Ok tt <->
  truthy (Env.baseUrl cr) = true
  /\ (truthy (Env.accessToken cr) = true
      \/ (truthy (clientId cr) = true /\ truthy (clientSecret cr) = true)).
Proof.
  unfold validateCredentials.
  destruct (truthy (Env.baseUrl cr)), (truthy (Env.accessToken cr)),
    (truthy (clientId cr)), (truthy (clientSecret cr)); simpl;
    split; intros H; try discriminate H; try reflexivity; auto;
    destruct H as [H1 [H2 | [H2 H3]]]; discriminate.
Qed.

(** X3.  A POST to [/mcp] reaches the MCP handler exactly when the header
    of the base URL is there and not empty, and so is the header of the
    access token or both headers of the client id and secret; the handler
    then gets the credentials read from the headers.  Every other POST to
    [/mcp] is answered 401 with the message of the validation. *)
Theorem mcp_admits_by_headers (headers : Headers) :
  ((exists cr, Worker.fetch "/mcp" "POST" headers = Mcp cr) <->
   truthy (headers "X-Looker-Base-URL") = true
   /\ (truthy (headers "X-Looker-Access-Token") = true
       \/ (truthy (headers "X-Looker-Client-ID") = true
           /\ truthy (headers "X-Looker-Client-Secret") = true)))
  /\ (forall cr, Worker.fetch "/mcp" "POST" headers = Mcp cr ->
                 cr = parseTenantCredentials headers
                 /\ validateCredentials cr = Ok tt)
  /\ ((exists cr, Worker.fetch "/mcp" "POST" headers = Mcp cr)
      \/ (exists m,
             Worker.fetch "/mcp" "POST" headers = Unauthorized m
             /\ validateCredentials (parseTenantCredentials headers)
                = Throw (Error m)
             /\ status_of (Unauthorized m) = Some 401)).
Proof.
  unfold Worker.fetch. simpl.
  pose proof (validateCredentials_ok (parseTenantCredentials headers)) as Hok.
  simpl in Hok. rewrite !truthy_or_undefined in Hok.
  destruct (validateCredentials (parseTenantCredentials headers))
    as [[] | [m]] eqn:E.
  - split; [| split].
    + split; [intros _; apply Hok; reflexivity | intros _; eauto].
    + intros cr [= <-]. split; [reflexivity | exact E].
    + left. eauto.
  - split; [| split].
    + split; [intros [cr Hcr]; discriminate Hcr |].
      intros H. apply Hok in H. discriminate H.
    + intros cr Hcr. discriminate Hcr.
    + right. exists m. repeat split.
Qed.

(** X4.  The headers matter to a POST to [/mcp] only: any other request
    gets the same answer whatever its headers are, [/health] is answered
    for every method, and [/mcp] with a method other than POST gets the
    documentation with status 200, as every unknown path does. *)
Theorem worker_reads_headers_for_mcp_only :
  (forall (pathname method : string) (h h' : Headers),
      ~ (pathname = "/mcp" /\ method = "POST") ->
      Worker.fetch pathname method h = Worker.fetch pathname method h')
  /\ (forall (method : string) (h : Headers),
         Worker.fetch "/health" method h = Health)
  /\ (forall (method : string) (h : Headers),
         method <> "POST" ->
         Worker.fetch "/mcp" method h = Documentation)
  /\ (forall (method : string) (h : Headers),
         Worker.fetch "/sse" method h = SseUnavailable)
  /\ (forall (pathname method : string) (h : Headers),
         pathname <> "/health" -> pathname <> "/mcp" -> pathname <> "/sse" ->
         Worker.fetch pathname method h = Documentation
         /\ status_of Documentation = Some 200).
Proof.
  split; [| split; [| split; [| split]]].
  - intros pathname method h h' Hno. unfold Worker.fetch.
    destruct (String.eqb pathname "/health"); [reflexivity |].
    destruct (String.eqb_spec pathname "/mcp") as [Ep | Ep];
      [| reflexivity].
    destruct (String.eqb_spec method "POST") as [Em | Em];
      [| reflexivity].
    exfalso. apply Hno. split; assumption.
  - reflexivity.
  - intros method h Hm. unfold Worker.fetch. simpl.
    destruct (String.eqb_spec method "POST") as [Em | Em];
      [contradiction | reflexivity].
  - reflexivity.
  - intros pathname method h H1 H2 H3. unfold Worker.fetch.
    destruct (String.eqb_spec pathname "/health"); [contradiction |].
    destruct (String.eqb_spec pathname "/mcp"); [contradiction |].
    destruct (String.eqb_spec pathname "/sse"); [contradiction |].
    simpl. split; reflexivity.
Qed.

(** ** The life of a token *)

Section TokenLife.

(** A token in the cache with 60 seconds or less to go is not served:
    with no token in the credentials, [getAccessToken] is the login, one
    reading of the clock later. *)
Lemma getAccessToken_expired (this : LookerClientImpl) (w : World) (t : string) :
  accessToken this = Some t -> t <> "" ->
  tokenExpiry this - 60000 <= clock w (ticks w) ->
  truthy (Env.accessToken (credentials this)) = false ->
  getAccessToken this w = oauth_login this (tick w).
Proof.
  intros Htok Ht Hold Hno. apply truthy_string_true in Ht.
  assert (E : (clock w (ticks w) <? tokenExpiry this - 60000) = false)
    by (apply Z.ltb_ge; exact Hold).
  unfold getAccessToken, cached_token. unfold_monad.
  rewrite Htok, Ht. fold (tick w). rewrite E.
  destruct (Env.accessToken (credentials this)) as [supplied |];
    [| reflexivity].
  simpl in Hno. rewrite Hno. reflexivity.
Qed.

(** The login is refused: the error carries the body, the client is as it
    was, and the call is in the log. *)
Lemma oauth_login_refused (this : LookerClientImpl) (w : World)
    (resp : Response LoginData) :
  truthy (clientId (credentials this)) = true ->
  truthy (clientSecret (credentials this)) = true ->
  login_server w (length (log w)) (login_request (credentials this))
  = Some resp ->
  ok resp = false ->
  oauth_login this w
  = (Throw (AuthenticationError ("Looker login failed: " +:+ text resp)),
     this, record Login (login_request (credentials this)) w).
Proof.
  intros Hid Hsecret Hsrv Hok.
  unfold oauth_login, fetch_login. unfold_monad.
  rewrite Hid, Hsecret. simpl. rewrite Hsrv. simpl. rewrite Hok. reflexivity.
Qed.

(** With credentials that can log in, [getAccessToken] never complains of
    missing credentials, in whatever state the client is. *)
Lemma getAccessToken_has_credentials (this : LookerClientImpl) (w : World) :
  truthy (Env.accessToken (credentials this)) = true
  \/ (truthy (clientId (credentials this)) = true
      /\ truthy (clientSecret (credentials this)) = true) ->
  fst (fst (getAccessToken this w))
  <> Throw (AuthenticationError no_credentials).
Proof.
  intros Hcr. unfold getAccessToken, bind.
  destruct (cached_token_frame this w) as (hit & w1 & Hc & _ & _).
  rewrite Hc. destruct hit as [t |]; [discriminate |].
  unfold get_this.
  assert (Hlogin : truthy (clientId (credentials this)) = true ->
                   truthy (clientSecret (credentials this)) = true ->
                   fst (fst (oauth_login this w1))
                   <> Throw (AuthenticationError no_credentials)).
  { intros Hid Hsecret. unfold oauth_login, fetch_login. unfold_monad.
    rewrite Hid, Hsecret. simpl.
    destruct (login_server w1 (length (log w1))
                (login_request (credentials this))) as [resp |]; simpl;
      [| discriminate].
    destruct (ok resp); simpl.
    - destruct (json resp); simpl; discriminate.
    - intros H. lazy in H. discriminate H. }
  destruct (Env.accessToken (credentials this)) as [supplied |] eqn:Es.
  - destruct (truthy_string supplied) eqn:Et.
    + unfold_monad. discriminate.
    + destruct Hcr as [Hcr | [Hid Hsecret]];
        [simpl in Hcr; congruence | auto].
  - destruct Hcr as [Hcr | [Hid Hsecret]]; [discriminate Hcr | auto].
Qed.

End TokenLife.

(** X5.  A client made from credentials that pass [validateCredentials]
    has a base URL that starts with the tenant's, which is not empty, and
    in no state it can reach does [getToken] fail for want of credentials:
    what can still fail is the login itself. *)
Theorem validated_client_has_credentials
    (cr : TenantCredentials) (w : World) (calls : list Call) :
  validateCredentials cr = Ok tt ->
  let s := run_calls calls (constructor cr w) in
  (exists b, Env.baseUrl cr = Some b /\ b <> ""
             /\ baseUrl (fst s) = b +:+ "/api/4.0")
  /\ fst (fst (getAccessToken (fst s) (snd s)))
     <> Throw (AuthenticationError no_credentials).
Proof.
  intros Hv s. apply validateCredentials_ok in Hv as [Hb Hcr].
  assert (Hs : credentials (fst s) = cr
               /\ baseUrl (fst s) = template (Env.baseUrl cr) +:+ "/api/4.0").
  { destruct (constructor_tenant cr w) as [Hc0 Hb0].
    destruct (run_calls_same_tenant calls (constructor cr w)) as [Hc Hb'].
    subst s. split; congruence. }
  destruct Hs as [Hc Hbase]. split.
  - destruct (Env.baseUrl cr) as [b |]; [| discriminate Hb].
    exists b. split; [reflexivity |]. split; [| exact Hbase].
    apply truthy_string_true. exact Hb.
  - apply getAccessToken_has_credentials. rewrite Hc. exact Hcr.
Qed.

Lemma validated_client_has_credentials_witness :
  let s := run_calls [CallRequest "/looks" no_options; CallGetToken]
             (fresh oauth_credentials login_refused unauthorized_401) in
  baseUrl (fst s) = "https://x.looker.com/api/4.0"
  /\ fst (fst (getAccessToken (fst s) (snd s)))
     <> Throw (AuthenticationError no_credentials).
Proof.
  destruct (validated_client_has_credentials oauth_credentials
              (world login_refused unauthorized_401)
              [CallRequest "/looks" no_options; CallGetToken] eq_refl)
    as [_ H].
  split; [reflexivity | exact H].
Defined.

(** X6.  A refused login, made because the cached token had 60 seconds or
    less to go, fails with the authentication error that carries the body
    of the answer, sends that one login call, and leaves the client as it
    was: the old token stays in the cache. *)
Theorem refused_login_keeps_cache
    (this : LookerClientImpl) (w : World) (t : string)
    (resp : Response LoginData) :
  accessToken this = Some t -> t <> "" ->
  tokenExpiry this - 60000 <= clock w (ticks w) ->
  truthy (Env.accessToken (credentials this)) = false ->
  is_set (clientId (credentials this)) ->
  is_set (clientSecret (credentials this)) ->
  login_server w (length (log w)) (login_request (credentials this))
  = Some resp ->
  ok resp = false ->
  getAccessToken this w
  = (Throw (AuthenticationError ("Looker login failed: " +:+ text resp)),
     this, record Login (login_request (credentials this)) (tick w)).
Proof.
  intros Htok Ht Hold Hno Hid Hsecret Hsrv Hok.
  rewrite (getAccessToken_expired this w t Htok Ht Hold Hno).
  apply oauth_login_refused; assumption.
Qed.

Lemma refused_login_keeps_cache_witness :
  let this := holding "T0" 1700000060000 in
  let w := world login_refused unauthorized_401 in
  getAccessToken this w
  = (Throw (AuthenticationError "Looker login failed: bad secret"),
     this, record Login (login_request oauth_credentials) (tick w)).
Proof.
  exact (refused_login_keeps_cache (holding "T0" 1700000060000)
           (world login_refused unauthorized_401) "T0" login_refused
           eq_refl ltac:(discriminate) ltac:(simpl; lia)
           eq_refl eq_refl eq_refl eq_refl eq_refl).
Defined.



(** ** What a call leaves behind *)

Section Calls.

(** Without a token and without one of the two client credentials,
    nothing happens but the error. *)
Lemma getAccessToken_no_credentials (this : LookerClientImpl) (w : World) :
  accessToken this = None ->
  truthy (Env.accessToken (credentials this)) = false ->
  truthy (clientId (credentials this)) = false
  \/ truthy (clientSecret (credentials this)) = false ->
  getAccessToken this w
  = (Throw (AuthenticationError no_credentials), this, w).
Proof.
  intros Htok Hno Hmiss.
  rewrite getAccessToken_is_login by assumption.
  unfold oauth_login. unfold_monad.
  destruct Hmiss as [-> | ->]; simpl; [reflexivity |].
  rewrite orb_true_r. reflexivity.
Qed.

Lemma request_without_token (endpoint : string) (options : RequestInit)
    (this : LookerClientImpl) (w : World) (e : ClientError) :
  getAccessToken this w = (Throw e, this, w) ->
  request endpoint options this w = (Throw e, this, w).
Proof.
  intros E. unfold request, getAuthHeaders, bind, get_this.
  rewrite E. reflexivity.
Qed.

(** Every answer but 401 and 403 leaves the client as it is. *)
Lemma respond_keeps_client (r : Response JSON)
    (this : LookerClientImpl) (w : World) :
  status r <> 401 -> status r <> 403 ->
  exists res, respond r this w = (res, this, w).
Proof.
  intros H401 H403. unfold respond.
  apply Z.eqb_neq in H401. apply Z.eqb_neq in H403.
  rewrite H401, H403. simpl.
  destruct (status r =? 429); [eexists; reflexivity |].
  destruct (status r =? 404); [eexists; reflexivity |].
  destruct (negb (ok r)); [eexists; reflexivity |].
  destruct (status r =? 204); [eexists; reflexivity |].
  destruct (negb (includes "application/json" (content_type r)));
    [eexists; reflexivity |].
  unfold_monad. destruct (json r); eexists; reflexivity.
Qed.

Lemma same_oracles_refl (w : World) : same_oracles w w.
Proof. repeat split. Qed.

Lemma same_oracles_tick (w w' : World) :
  same_oracles w w' -> same_oracles w (tick w').
Proof. intros H. exact H. Qed.

Lemma same_oracles_record (w w' : World) (o : Origin) (r : Request) :
  same_oracles w w' -> same_oracles w (record o r w').
Proof. intros H. exact H. Qed.

(** One call of a client whose cached token is good for the whole run, in
    a world whose API never answers 401 or 403. *)
Lemma run_call_with_good_token
    (this : LookerClientImpl) (w : World) (t : string) (call : Call) :
  accessToken this = Some t -> t <> "" ->
  (forall n, clock w n < tokenExpiry this - 60000) ->
  (forall n req resp, api_server w n req = Some resp ->
                      status resp <> 401 /\ status resp <> 403) ->
  forall w' : World,
    same_oracles w w' ->
    exists w'' : World,
      run_call call (this, w') = (this, w'')
      /\ same_oracles w w''
      /\ logins w'' = logins w'.
Proof.
  intros Htok Ht Hclock Hapi w' Hw'.
  assert (Hhit : getAccessToken this w' = (Ok t, this, tick w')).
  { apply getAccessToken_hit; [exact Htok | exact Ht |].
    destruct Hw' as (-> & _ & _). apply Hclock. }
  destruct call as [| endpoint options]; simpl.
  - rewrite Hhit. exists (tick w'). repeat split; try apply Hw'.
  - unfold request, getAuthHeaders, bind, get_this, ret.
    rewrite Hhit. unfold fetch_api.
    set (sent := api_request this endpoint options _).
    destruct (api_server (tick w') (length (log (tick w'))) sent)
      as [resp |] eqn:Esrv.
    + assert (Hst : status resp <> 401 /\ status resp <> 403).
      { destruct Hw' as (_ & _ & Ha). simpl in Esrv. rewrite Ha in Esrv.
        exact (Hapi _ _ _ Esrv). }
      destruct (respond_keeps_client resp this (record Api sent (tick w'))
                  (proj1 Hst) (proj2 Hst)) as [res Er].
      rewrite Er. exists (record Api sent (tick w')).
      split; [reflexivity |]. split; [exact Hw' |].
      rewrite logins_record_api. reflexivity.
    + exists (record Api sent (tick w')).
      split; [reflexivity |]. split; [exact Hw' |].
      rewrite logins_record_api. reflexivity.
Qed.

End Calls.

(** X8.  A client whose credentials carry no access token and lack the
    client id or the client secret never reaches the network: whatever
    calls were made before, the next call fails with the authentication
    error for missing credentials, and the log of calls is as it was when
    the client was made. *)
Theorem no_credentials_no_network
    (cr : TenantCredentials) (w : World) (calls : list Call)
    (endpoint : string) (options : RequestInit) :
  truthy (Env.accessToken cr) = false ->
  truthy (clientId cr) = false \/ truthy (clientSecret cr) = false ->
  let s := run_calls calls (constructor cr w) in
  s = constructor cr w
  /\ snd s = w
  /\ request endpoint options (fst s) (snd s)
     = (Throw (AuthenticationError no_credentials), fst s, snd s).
Proof.
  intros Hno Hmiss s. subst s.
  rewrite (constructor_oauth cr w Hno).
  set (this0 := {| credentials := cr |}).
  assert (Hg : getAccessToken this0 w
               = (Throw (AuthenticationError no_credentials), this0, w)).
  { apply getAccessToken_no_credentials; assumption || reflexivity. }
  assert (Hs : run_calls calls (this0, w) = (this0, w)).
  { induction calls as [| call rest IH]; [reflexivity |].
    simpl. destruct call as [| e o]; simpl.
    - rewrite Hg. exact IH.
    - rewrite (request_without_token e o this0 w _ Hg). exact IH. }
  rewrite Hs. simpl. split; [reflexivity |]. split; [reflexivity |].
  apply request_without_token. exact Hg.
Qed.

Lemma no_credentials_no_network_witness :
  let s := run_calls [CallGetToken; CallRequest "/looks" no_options]
             (fresh no_secret_credentials (login_ok "T1" None) (array_200 0)) in
  log (snd s) = []
  /\ fst (fst (request "/user" no_options (fst s) (snd s)))
     = Throw (AuthenticationError no_credentials).
Proof.
  destruct (no_credentials_no_network no_secret_credentials
              (world (login_ok "T1" None) (array_200 0))
              [CallGetToken; CallRequest "/looks" no_options]
              "/user" no_options eq_refl (or_intror eq_refl))
    as (_ & Hw & Hr).
  unfold fresh. split; [rewrite Hw; reflexivity | rewrite Hr; reflexivity].
Defined.

(** X9.  Only a 401 or a 403 touches the cache: a call answered with any
    other status, whether it returns or fails, leaves the client exactly
    as the token step left it. *)
Theorem other_answers_keep_client
    (endpoint : string) (options : RequestInit)
    (this : LookerClientImpl) (w : World)
    (r : Response JSON) (this1 : LookerClientImpl) (w1 : World) :
  answered endpoint options this w r this1 w1 ->
  status r <> 401 -> status r <> 403 ->
  exists res, request endpoint options this w = (res, this1, w1).
Proof.
  intros H H401 H403. rewrite (request_answered _ _ _ _ _ _ _ H).
  apply respond_keeps_client; assumption.
Qed.

Lemma other_answers_keep_client_witness :
  let s := fresh oauth_credentials (login_ok "T1" None) server_error_500 in
  exists this1 w1,
    answered "/looks" no_options (fst s) (snd s) server_error_500 this1 w1
    /\ accessToken this1 = Some "T1"
    /\ exists res, request "/looks" no_options (fst s) (snd s)
                   = (res, this1, w1).
Proof.
  intros s.
  assert (H : exists this1 w1,
             answered "/looks" no_options (fst s) (snd s)
                      server_error_500 this1 w1
             /\ accessToken this1 = Some "T1").
  { eexists. eexists. split.
    - eexists. eexists. split; [reflexivity | split; reflexivity].
    - reflexivity. }
  destruct H as (this1 & w1 & H & Ht).
  exists this1, w1. split; [exact H |]. split; [exact Ht |].
  apply (other_answers_keep_client _ _ _ _ _ _ _ H); discriminate.
Defined.

(** X10.  One login serves many calls: while every reading of the clock
    is more than 60 seconds before the expiry of a cached token, and the
    API answers neither 401 nor 403, any sequence of calls leaves the
    client as it is and sends no login call. *)
Theorem cached_token_serves_all_calls
    (this : LookerClientImpl) (w : World) (t : string) (calls : list Call) :
  accessToken this = Some t -> t <> "" ->
  (forall n, clock w n < tokenExpiry this - 60000) ->
  (forall n req resp, api_server w n req = Some resp ->
                      status resp <> 401 /\ status resp <> 403) ->
  fst (run_calls calls (this, w)) = this
  /\ logins (snd (run_calls calls (this, w))) = logins w.
Proof.
  intros Htok Ht Hclock Hapi.
  assert (H : forall w', same_oracles w w' ->
                         fst (run_calls calls (this, w')) = this
                         /\ logins (snd (run_calls calls (this, w')))
                            = logins w').
  { induction calls as [| call rest IH]; intros w' Hw'.
    - split; reflexivity.
    - destruct (run_call_with_good_token this w t call Htok Ht Hclock Hapi
                  w' Hw') as (w'' & E & Hw'' & Hl).
      simpl. rewrite E. destruct (IH w'' Hw'') as [Hthis Hlog].
      split; [exact Hthis | congruence]. }
  apply H. apply same_oracles_refl.
Qed.

Lemma cached_token_serves_all_calls_witness :
  let this := holding "T0" 1800000000000 in
  let w := {| clock := fun _ => 1700000000000;
              login_server := fun _ _ => None;
              api_server := fun _ _ => Some (array_200 0);
              ticks := 0; log := [] |} in
  let s := run_calls [CallRequest "/looks" no_options; CallGetToken;
                      CallRequest "/users" no_options] (this, w) in
  fst s = this /\ logins (snd s) = [].
Proof.
  intros this w.
  apply (cached_token_serves_all_calls this w "T0" _ eq_refl).
  - discriminate.
  - intros n. simpl. lia.
  - intros n req resp [= <-]. split; discriminate.
Defined.

(** X11.  After a 401 or a 403 the client recovers by itself on the next
    call: with client credentials and a login server that answers, that
    call sends the login request and then the API call, which carries the
    new token. *)
Theorem next_call_logs_in_again
    (endpoint : string) (options : RequestInit)
    (this : LookerClientImpl) (w : World)
    (r : Response JSON) (this1 : LookerClientImpl) (w1 : World)
    (resp : Response LoginData) (data : LoginData)
    (endpoint' : string) (options' : RequestInit) :
  answered endpoint options this w r this1 w1 ->
  status r = 401 \/ status r = 403 ->
  truthy (Env.accessToken (credentials this1)) = false ->
  is_set (clientId (credentials this1)) ->
  is_set (clientSecret (credentials this1)) ->
  login_server w1 (length (log w1)) (login_request (credentials this1))
  = Some resp ->
  ok resp = true -> json resp = Some data ->
  exists this2 w2,
    run_call (CallRequest endpoint' options')
             (run_call (CallRequest endpoint options) (this, w))
    = (this2, w2)
    /\ log w2
       = (log w1
          ++ [(Login, login_request (credentials this1));
              (Api, api_request (cleared this1) endpoint' options'
                      {[ "Authorization" := "Bearer " +:+ access_token data;
                         "Content-Type" := "application/json" ]})])%list.
Proof.
  intros H Hst Hno Hid Hsecret Hsrv Hok Hjson.
  destruct (auth_failure_clears_token _ _ _ _ _ _ _ H Hst) as (E & _).
  simpl. rewrite E. simpl.
  destruct (request_sends endpoint' options' (cleared this1) w1)
    as (res & this2 & w2 & Er & Hm).
  rewrite getAccessToken_is_login in Hm by (reflexivity || exact Hno).
  rewrite (oauth_login_caches (cleared this1) w1 resp data
             Hid Hsecret Hsrv Hok Hjson) in Hm.
  destruct Hm as (Hl & _). rewrite Er.
  exists this2, w2. split; [reflexivity |].
  rewrite Hl. simpl. rewrite <- app_assoc. reflexivity.
Qed.

Lemma next_call_logs_in_again_witness :
  let this := fst (constructor oauth_credentials rotating_world) in
  let s := run_call (CallRequest "/looks" no_options)
             (run_call (CallRequest "/looks" no_options)
                (this, rotating_world)) in
  map (fun entry => (fst entry, headers (snd entry) !! "Authorization"))
      (log (snd s))
  = [(Login, None); (Api, Some "Bearer T1");
     (Login, None); (Api, Some "Bearer T2")].
Proof.
  intros this s.
  assert (H : exists this1 w1,
             answered "/looks" no_options this rotating_world
                      unauthorized_401 this1 w1
             /\ credentials this1 = oauth_credentials
             /\ login_server w1 (length (log w1))
                  (login_request oauth_credentials)
                = Some (login_ok "T2" (Some 3600))
             /\ map (fun entry =>
                       (fst entry, headers (snd entry) !! "Authorization"))
                    (log w1)
                = [(Login, None); (Api, Some "Bearer T1")]).
  { eexists. eexists. split.
    - eexists. eexists. split; [reflexivity | split; reflexivity].
    - split; [reflexivity | split; reflexivity]. }
  destruct H as (this1 & w1 & H & Hc & Hsrv & Hlog).
  assert (Hnext := next_call_logs_in_again "/looks" no_options this
                     rotating_world unauthorized_401 this1 w1
                     (login_ok "T2" (Some 3600))
                     {| access_token := "T2"; expires_in := Some 3600 |}
                     "/looks" no_options H (or_introl eq_refl)).
  rewrite Hc in Hnext.
  destruct (Hnext eq_refl eq_refl eq_refl Hsrv eq_refl eq_refl)
    as (this2 & w2 & E & Hl).
  subst s. rewrite E. simpl. rewrite Hl, map_app, Hlog. reflexivity.
Defined.

(** ** What a value cannot do to a request *)

Section Escaping.

Lemma count_char_app (c : ascii) (a b : string) :
  count_char c (a +:+ b) = (count_char c a + count_char c b)%nat.
Proof.
  induction a as [| x a IH]; [reflexivity |].
  change (count_char c (String x (a +:+ b))
          = (count_char c (String x a) + count_char c b)%nat).
  simpl. rewrite IH. lia.
Qed.

(** An escape has neither [&] nor [=] in it. *)
Lemma percent_is_inert (x : ascii) :
  count_char "&" (percent x) = O /\ count_char "=" (percent x) = O.
Proof.
  destruct x as [[] [] [] [] [] [] [] []]; split; reflexivity.
Qed.

Lemma encodeURIComponent_is_inert (s : string) :
  count_char "&" (encodeURIComponent s) = O
  /\ count_char "=" (encodeURIComponent s) = O.
Proof.
  induction s as [| x s [IHa IHe]]; [split; reflexivity |].
  simpl. destruct (uri_unreserved x) eqn:E.
  - simpl. rewrite IHa, IHe.
    destruct x as [[] [] [] [] [] [] [] []];
      try (vm_compute in E; discriminate E); split; reflexivity.
  - rewrite !count_char_app, IHa, IHe.
    destruct (percent_is_inert x) as [-> ->]. split; reflexivity.
Qed.

Lemma form_encode_is_inert (s : string) :
  count_char "&" (form_encode s) = O /\ count_char "=" (form_encode s) = O.
Proof.
  induction s as [| x s [IHa IHe]]; [split; reflexivity |].
  simpl. destruct (code x =? 32)%N.
  - simpl. rewrite IHa, IHe. split; reflexivity.
  - destruct (form_unreserved x) eqn:E.
    + simpl. rewrite IHa, IHe.
      destruct x as [[] [] [] [] [] [] [] []];
        try (vm_compute in E; discriminate E); split; reflexivity.
    + rewrite !count_char_app, IHa, IHe.
      destruct (percent_is_inert x) as [-> ->]. split; reflexivity.
Qed.

(** One pair of a query: one [=], no [&]. *)
Lemma pair_counts (name value rest : string) :
  count_char "&" (form_encode name +:+ "=" +:+ form_encode value +:+ rest)
  = count_char "&" rest
  /\ count_char "=" (form_encode name +:+ "=" +:+ form_encode value +:+ rest)
     = S (count_char "=" rest).
Proof.
  rewrite !count_char_app.
  destruct (form_encode_is_inert name) as [-> ->].
  destruct (form_encode_is_inert value) as [-> ->].
  split; reflexivity.
Qed.

Lemma usp_toString_counts (q : URLSearchParams) :
  count_char "=" (usp_toString q) = length q
  /\ count_char "&" (usp_toString q) = pred (length q).
Proof.
  induction q as [| [n v] q [IHe IHa]]; [split; reflexivity |].
  destruct q as [| p q'].
  - simpl usp_toString.
    replace (form_encode n +:+ "=" +:+ form_encode v)
      with (form_encode n +:+ "=" +:+ form_encode v +:+ "").
    + destruct (pair_counts n v "") as [-> ->]. split; reflexivity.
    + f_equal. f_equal. clear. induction (form_encode v) as [| x s IH];
        [reflexivity |].
      change (String x (s +:+ "") = String x s). rewrite IH. reflexivity.
  - change (usp_toString ((n, v) :: p :: q'))
      with (form_encode n +:+ "=" +:+ form_encode v +:+ "&"
            +:+ usp_toString (p :: q')).
    destruct (pair_counts n v ("&" +:+ usp_toString (p :: q'))) as [-> ->].
    rewrite !count_char_app, IHe, IHa. split; reflexivity.
Qed.

End Escaping.

(** X12.  Whatever the client id and the client secret contain, the body
    of the login request has exactly one [&] and two [=]: a credential
    cannot add a field to the form or end one early. *)
Theorem login_body_has_two_fields (cr : TenantCredentials) :
  exists b : string,
    body (login_request cr) = Some b
    /\ count_char "&" b = 1%nat
    /\ count_char "=" b = 2%nat.
Proof.
  eexists. split; [reflexivity |].
  rewrite !count_char_app.
  destruct (encodeURIComponent_is_inert (template (clientId cr))) as [-> ->].
  destruct (encodeURIComponent_is_inert (template (clientSecret cr)))
    as [-> ->].
  split; reflexivity.
Qed.

(** X13.  The query of [searchLooks] has one [=] for each parameter that
    is sent (a title or a folder id that is not empty, a limit that is not
    0) and one [&] between two of them: a title cannot add a parameter. *)
Theorem search_query_has_sent_parameters (params : LookSearch) :
  count_char "=" (search_query params) = sent_parameters params
  /\ count_char "&" (search_query params) = pred (sent_parameters params).
Proof.
  unfold search_query.
  destruct (usp_toString_counts
              (set_if_number "limit" (search_limit params)
                 (set_if_string "folder_id" (folder_id params)
                    (set_if_string "title" (title params) []))))
    as [-> ->].
  assert (E : length (set_if_number "limit" (search_limit params)
                        (set_if_string "folder_id" (folder_id params)
                           (set_if_string "title" (title params) [])))
              = sent_parameters params).
  { unfold sent_parameters, set_if_number, set_if_string.
    destruct params as [t f l]. simpl.
    destruct (truthy t), (truthy f); destruct l as [z |]; simpl;
      try reflexivity; destruct (z =? 0); reflexivity. }
  rewrite E. split; reflexivity.
Qed.

(** ** Operations *)

(** X14.  [testConnection] never throws.  When the call to [/user] is
    answered, it reports [connected] exactly when the status is one of
    200..299 and the body could be returned: the status is 204, or the
    content type is not JSON, or the body parses.  A 200 with a broken JSON
    body is reported as not connected. *)
Theorem testConnection_reports
    (describe : ClientError -> string)
    (this : LookerClientImpl) (w : World)
    (r : Response JSON) (this1 : LookerClientImpl) (w1 : World) :
  answered "/user" no_options this w r this1 w1 ->
  exists (c : Connection) (this' : LookerClientImpl),
    testConnection describe this w = (Ok c, this', w1)
    /\ (connected c = true <->
        ok r = true
        /\ (status r = 204
            \/ includes "application/json" (content_type r) = false
            \/ json r <> None)).
Proof.
  intros H. unfold testConnection.
  rewrite (request_answered _ _ _ _ _ _ _ H). unfold respond, ok.
  destruct (Z.eqb_spec (status r) 429) as [E429 | E429].
  { eexists. eexists. split; [reflexivity |]. simpl. rewrite E429. simpl.
    split; [discriminate | intros [Hk _]; discriminate Hk]. }
  destruct (Z.eqb_spec (status r) 401) as [E401 | E401].
  { eexists. eexists. split; [reflexivity |]. simpl. rewrite E401. simpl.
    split; [discriminate | intros [Hk _]; discriminate Hk]. }
  destruct (Z.eqb_spec (status r) 403) as [E403 | E403].
  { eexists. eexists. split; [reflexivity |]. simpl. rewrite E403. simpl.
    split; [discriminate | intros [Hk _]; discriminate Hk]. }
  simpl.
  destruct (Z.eqb_spec (status r) 404) as [E404 | E404].
  { eexists. eexists. split; [reflexivity |]. simpl. rewrite E404. simpl.
    split; [discriminate | intros [Hk _]; discriminate Hk]. }
  destruct ((200 <=? status r) && (status r <=? 299)) eqn:Eok; simpl.
  - destruct (Z.eqb_spec (status r) 204) as [E204 | E204].
    { eexists. eexists. split; [reflexivity |]. simpl.
      split; [intros _; split; [reflexivity | left; exact E204] |
              reflexivity]. }
    destruct (includes "application/json" (content_type r)) eqn:Ejson; simpl.
    + unfold bind, json_of. destruct (json r) as [j |]; simpl.
      * eexists. eexists. split; [reflexivity |]. simpl.
        split; [intros _; split; [reflexivity | right; right; discriminate] |
                reflexivity].
      * eexists. eexists. split; [reflexivity |]. simpl.
        split; [discriminate |].
        intros [_ [Hs | [Hs | Hs]]];
          [contradiction | discriminate Hs | contradiction].
    + eexists. eexists. split; [reflexivity |]. simpl.
      split; [intros _; split; [reflexivity | right; left; reflexivity] |
              reflexivity].
  - eexists. eexists. split; [reflexivity |]. simpl.
    split; [discriminate | intros [Hk _]; discriminate Hk].
Qed.

Lemma testConnection_reports_witness :
  let s := fresh token_credentials (login_ok "T1" None) no_content in
  exists c this' w1,
    testConnection describe (fst s) (snd s) = (Ok c, this', w1)
    /\ connected c = true.
Proof.
  intros s.
  assert (H : exists this1 w1,
             answered "/user" no_options (fst s) (snd s) no_content this1 w1).
  { eexists. eexists. eexists. eexists.
    split; [reflexivity | split; reflexivity]. }
  destruct H as (this1 & w1 & H).
  destruct (testConnection_reports describe _ _ _ _ _ H)
    as (c & this' & E & Hc).
  exists c, this', w1. split; [exact E |].
  apply Hc. split; [reflexivity | left; reflexivity].
Defined.

(** X15.  An id goes into the path as it is: [getScheduledPlan] with the
    id [look/] followed by [i] is, call for call, [getScheduledPlansForLook]
    with the id [i]. *)
Theorem path_parameters_are_not_escaped
    (i : string) (this : LookerClientImpl) (w : World) :
  getScheduledPlan ("look/" +:+ i) this w = getScheduledPlansForLook i this w.
Proof. reflexivity. Qed.

(** X16.  Parameters that are 0 or empty are the same as none: a list
    operation given a limit of 0 or none, an offset of 0 or none and no
    fields or empty ones makes the call, and gives the page, of no
    parameters at all; in particular an offset of 0 is never sent. *)
Theorem falsy_parameters_are_absent
    (path : string) (params : PaginationParams)
    (this : LookerClientImpl) (w : World) :
  truthy_number (limit params) = false ->
  truthy_number (offset params) = false ->
  truthy (fields params) = false ->
  pagination_query (Some params) = ""
  /\ list_page path (Some params) this w = list_page path None this w.
Proof.
  intros Hl Ho Hf.
  assert (Hq : pagination_query (Some params) = "").
  { unfold pagination_query, set_if_number, set_if_string. simpl.
    rewrite Hf. destruct (offset params), (limit params);
      simpl in *; rewrite ?Hl, ?Ho; reflexivity. }
  split; [exact Hq |].
  unfold list_page. rewrite Hq.
  assert (Hn : number_or (opt (Some params) limit) 100
               = number_or (opt (@None PaginationParams) limit) 100).
  { simpl. destruct (limit params) as [z |]; [| reflexivity].
    simpl in Hl. apply negb_false_iff in Hl. simpl. rewrite Hl. reflexivity. }
  rewrite Hn. reflexivity.
Qed.

Lemma falsy_parameters_are_absent_witness :
  let s := fresh oauth_credentials (login_ok "T1" None) (array_200 2) in
  listUsers (Some {| limit := Some 0; offset := Some 0; fields := Some "" |})
            (fst s) (snd s)
  = listUsers None (fst s) (snd s).
Proof.
  intros s.
  exact (proj2 (falsy_parameters_are_absent "/users"
                  {| limit := Some 0; offset := Some 0; fields := Some "" |}
                  (fst s) (snd s) eq_refl eq_refl eq_refl)).
Defined.

(** X17.  A list operation needs a body: when the server answers 204, or
    a JSON body that is [null], the operation throws a [TypeError] from
    reading the length, after the call went out; it gives no empty page. *)
Theorem list_page_needs_a_body
    (path : string) (params : option PaginationParams)
    (this : LookerClientImpl) (w : World)
    (r : Response JSON) (this1 : LookerClientImpl) (w1 : World) :
  answered (path +:+ "?" +:+ pagination_query params) no_options
           this w r this1 w1 ->
  status r = 204
  \/ (status r = 200
      /\ includes "application/json" (content_type r) = true
      /\ json r = Some JNull) ->
  list_page path params this w = (Throw TypeError, this1, w1).
Proof.
  intros H Hr. unfold list_page, bind.
  rewrite (request_answered _ _ _ _ _ _ _ H).
  destruct Hr as [E | (E & Ej & En)].
  - rewrite respond_204 by exact E. reflexivity.
  - unfold respond, ok. rewrite E, Ej. simpl.
    unfold bind, json_of. rewrite En. reflexivity.
Qed.

Lemma list_page_needs_a_body_witness :
  let s := fresh oauth_credentials (login_ok "T1" None) no_content in
  fst (fst (listFolders (with_limit 5) (fst s) (snd s))) = Throw TypeError.
Proof.
  intros s.
  assert (H : exists this1 w1,
             answered ("/folders" +:+ "?" +:+ pagination_query (with_limit 5))
                      no_options (fst s) (snd s) no_content this1 w1).
  { eexists. eexists. eexists. eexists.
    split; [reflexivity | split; reflexivity]. }
  destruct H as (this1 & w1 & H).
  unfold listFolders.
  rewrite (list_page_needs_a_body "/folders" (with_limit 5) _ _ _ _ _ H
             (or_introl eq_refl)).
  reflexivity.
Defined.
